(** * EdgeStore server SDK: a shallow embedding of
      [packages/server/src/core/sdk/index.ts]

    The module is a thin HTTP client: every operation shapes a JSON body,
    posts it with a Basic-Auth header and hands back the parsed answer.
    The embedding keeps that shape:

    - JavaScript values are a tree type [value]; objects are association
      lists in enumeration order (order is visible after serialization);
    - strings are Rocq strings, read as the UTF-8 bytes of a well-formed
      JavaScript string;
    - [process.env] is a finite map from names to strings;
    - [async] functions are computations in a small monad that threads the
      log of the requests handed to [fetch] and may throw;
    - [fetch] and [JSON.parse] belong to the platform and are taken as
      fields of a [Platform] record; an exchange that fails, in [fetch] or
      while the body of the answer is read, is one outcome of [fetch]. *)

From Stdlib Require Import ZArith NArith List String Ascii Lia.
From Stdlib Require Import DecimalString.
From stdpp Require Import gmap strings.
Import ListNotations.

#[local] Set Warnings "-register-all".

Local Open Scope string_scope.
Local Open Scope Z_scope.

(** ** JavaScript values *)

(** Numbers met by this API are sizes, part numbers and page indices:
    integers.  [Num n] is the number the integer literal [n] evaluates to,
    the double nearest to [n] ([n] itself up to 2^53). *)
Inductive value : Type :=
| Undefined
| Null
| Bool (b : bool)
| Num (n : Z)
| Str (s : string)
| Arr (items : list value)
| Obj (props : list (string * value)).

(** Errors a call can be rejected with.  [Error m] is [new Error(m)];
    [TypeError] and [SyntaxError] come from the language and from
    [JSON.parse]; [FetchFailed] is the rejection of a failed exchange
    ([fetch] rejects, or the body of the answer cannot be read). *)
Inductive error : Type :=
| EdgeStoreCredentialsError
| Error (message : string)
| TypeError
| SyntaxError
| FetchFailed.

Inductive result (A : Type) : Type :=
| Ok (a : A)
| Throw (e : error).
Arguments Ok {A} a.
Arguments Throw {A} e.

(** ** Platform functions: [Buffer#toString('base64')], [JSON.stringify] *)

Definition dquote : string := String "034"%char EmptyString.

Definition base64_alphabet : string :=
  "ABCDEFGHIJKLMNOPQRSTUVWXYZabcdefghijklmnopqrstuvwxyz0123456789+/".

Definition base64_digit (n : N) : string :=
  match String.get (N.to_nat n) base64_alphabet with
  | Some c => String c EmptyString
  | None => EmptyString
  end.

Fixpoint base64_bytes (l : list N) : string :=
  match l with
  | [] => EmptyString
  | [a] =>
      base64_digit (N.shiftr a 2) ++
      base64_digit (N.shiftl (N.land a 3) 4) ++ "=="
  | [a; b] =>
      base64_digit (N.shiftr a 2) ++
      base64_digit (N.lor (N.shiftl (N.land a 3) 4) (N.shiftr b 4)) ++
      base64_digit (N.shiftl (N.land b 15) 2) ++ "="
  | a :: b :: c :: rest =>
      base64_digit (N.shiftr a 2) ++
      base64_digit (N.lor (N.shiftl (N.land a 3) 4) (N.shiftr b 4)) ++
      base64_digit (N.lor (N.shiftl (N.land b 15) 2) (N.shiftr c 6)) ++
      base64_digit (N.land c 63) ++
      base64_bytes rest
  end.

Definition bytes_of_string (s : string) : list N :=
  List.map N_of_ascii (list_ascii_of_string s).

(** [Buffer.from(s).toString('base64')] *)
Definition base64 (s : string) : string := base64_bytes (bytes_of_string s).

Definition hex_digit (n : N) : string :=
  match String.get (N.to_nat n) "0123456789abcdef" with
  | Some c => String c EmptyString
  | None => EmptyString
  end.

(** One character of a JSON string literal, as [JSON.stringify] writes it. *)
Definition json_escape_char (c : ascii) : string :=
  let n := N_of_ascii c in
  if (n =? 34)%N then "\" ++ dquote
  else if (n =? 92)%N then "\\"
  else if (n =? 8)%N then "\b"
  else if (n =? 12)%N then "\f"
  else if (n =? 10)%N then "\n"
  else if (n =? 13)%N then "\r"
  else if (n =? 9)%N then "\t"
  else if (n <? 32)%N then "\u00" ++ hex_digit (n / 16) ++ hex_digit (n mod 16)
  else String c EmptyString.

Fixpoint json_escape (s : string) : string :=
  match s with
  | EmptyString => EmptyString
  | String c rest => json_escape_char c ++ json_escape rest
  end.

Definition json_quote (s : string) : string :=
  dquote ++ json_escape s ++ dquote.

Definition decimal (n : Z) : string :=
  NilZero.string_of_int (Z.to_int n).

(** The double nearest to an integer, ties to the even significand; an
    integer below 2^53 is a double. *)
Definition round_to_double (n : Z) : Z :=
  let a := Z.abs n in
  if a <? 2 ^ 53 then n
  else
    let e := Z.log2 a - 52 in
    let q := a / 2 ^ e in
    let r := a mod 2 ^ e in
    let half := 2 ^ (e - 1) in
    let q' :=
      if r <? half then q
      else if half <? r then q + 1
      else if Z.even q then q else q + 1 in
    Z.sgn n * (q' * 2 ^ e).

(** Past the largest double the nearest one is an infinity. *)
Definition is_finite (d : Z) : bool := Z.abs d <? 2 ^ 1024.

(** The integer with the fewest significant digits that still rounds to
    the double [d > 0] of [m] digits, the nearest to [d] when two do:
    the digits [Number::toString] writes. *)
Fixpoint shortest_digits (fuel : nat) (k : Z) (d m : Z) : Z :=
  match fuel with
  | O => d
  | S fuel' =>
      let p := m - k in
      if p <=? 0 then d
      else
        let g := 10 ^ p in
        let lo := (d / g) * g in
        let hi := lo + g in
        let lo_ok := round_to_double lo =? d in
        let hi_ok := round_to_double hi =? d in
        if lo_ok && hi_ok then
          if d - lo <? hi - d then lo
          else if hi - d <? d - lo then hi
          else if Z.even (d / g) then lo else hi
        else if lo_ok then lo
        else if hi_ok then hi
        else shortest_digits fuel' (k + 1) d m
  end.

Fixpoint strip_zeros (fuel : nat) (s : Z) : Z :=
  match fuel with
  | O => s
  | S fuel' =>
      if (s mod 10 =? 0) && negb (s =? 0) then strip_zeros fuel' (s / 10)
      else s
  end.

Definition digits_of (a : Z) : Z := Z.of_nat (String.length (decimal a)).

(** [Number::toString] of a double [d > 0] with an integer value: plain
    digits up to 21 of them, exponent form past that. *)
Definition positive_number_string (d : Z) : string :=
  let v := shortest_digits 17 1 d (digits_of d) in
  let n := digits_of v in
  if n <=? 21 then decimal v
  else
    match decimal (strip_zeros (Z.to_nat n) v) with
    | String c EmptyString =>
        String c EmptyString ++ "e+" ++ decimal (n - 1)
    | String c rest =>
        String c EmptyString ++ "." ++ rest ++ "e+" ++ decimal (n - 1)
    | EmptyString => EmptyString
    end.

(** [String(n)] for the number of [Num n]. *)
Definition number_string (n : Z) : string :=
  let d := round_to_double n in
  if negb (is_finite d) then (if d <? 0 then "-Infinity" else "Infinity")
  else if d =? 0 then "0"
  else if d <? 0 then "-" ++ positive_number_string (- d)
  else positive_number_string d.

(** [JSON.stringify] of the number of [Num n]: an infinity is written
    [null]. *)
Definition json_number (n : Z) : string :=
  if is_finite (round_to_double n) then number_string n else "null".

Definition comma_join (l : list string) : string :=
  match l with
  | [] => EmptyString
  | x :: rest => x ++ String.concat "" (List.map (fun s => "," ++ s) rest)
  end.

(** [JSON.stringify v]: [None] is the JavaScript [undefined] it answers for
    a value that has no JSON text.  An [undefined] array item is written
    [null]; an [undefined] property is left out. *)
Fixpoint JSON_stringify (v : value) : option string :=
  match v with
  | Undefined => None
  | Null => Some "null"
  | Bool true => Some "true"
  | Bool false => Some "false"
  | Num n => Some (json_number n)
  | Str s => Some (json_quote s)
  | Arr items =>
      Some ("[" ++
            comma_join
              (List.map (fun x => match JSON_stringify x with
                                  | Some t => t
                                  | None => "null"
                                  end) items) ++ "]")
  | Obj props =>
      Some ("{" ++
            comma_join
              ((fix members (ps : list (string * value)) : list string :=
                  match ps with
                  | [] => []
                  | (k, x) :: rest =>
                      match JSON_stringify x with
                      | Some t => (json_quote k ++ ":" ++ t) :: members rest
                      | None => members rest
                      end
                  end) props) ++ "}")
  end.

(** The members [JSON.stringify] writes for the properties of an object. *)
Fixpoint json_members (ps : list (string * value)) : list string :=
  match ps with
  | [] => []
  | (k, x) :: rest =>
      match JSON_stringify x with
      | Some t => (json_quote k ++ ":" ++ t) :: json_members rest
      | None => json_members rest
      end
  end.

(** [`${v}`]: the string a template literal makes of a value. *)
Fixpoint template_string (v : value) : string :=
  match v with
  | Undefined => "undefined"
  | Null => "null"
  | Bool true => "true"
  | Bool false => "false"
  | Num n => number_string n
  | Str s => s
  | Arr items =>
      comma_join
        (List.map (fun x => match x with
                            | Undefined | Null => EmptyString
                            | _ => template_string x
                            end) items)
  | Obj _ => "[object Object]"
  end.

(** ** Requests, responses and the platform *)

Record Request : Type := {
  req_url : string;
  req_method : string;
  req_body : option string;
  req_headers : list (string * string)
}.

Record Response : Type := {
  res_status : Z;
  res_text : string
}.

(** [res.ok]: the status is in the range 200-299. *)
Definition res_ok (res : Response) : bool :=
  (200 <=? res_status res) && (res_status res <=? 299).

(** What the module takes from its host: the environment, the network
    and the JSON parser behind [res.json()] ([None]: the text is not JSON
    and the parser throws).  [fetch] stands for the whole exchange, up to
    the body of the answer being read: [Some res] is an answer with its
    status and its complete text, [None] an exchange that fails, either
    because [fetch] rejects or because the body cannot be read ([res.text()]
    and [res.json()] then reject). *)
Record Platform : Type := {
  env : gmap string string;
  fetch : Request -> option Response;
  JSON_parse : string -> option value
}.

(** ** The monad of [async] functions

    A computation reads the log of the requests issued so far and answers
    with a value or a thrown error, and the log extended.  *)

Definition M (A : Type) : Type := list Request -> result A * list Request.

Definition ret {A} (a : A) : M A := fun log => (Ok a, log).

Definition throw {A} (e : error) : M A := fun log => (Throw e, log).

Definition bind {A B} (c : M A) (k : A -> M B) : M B :=
  fun log =>
    match c log with
    | (Ok a, log') => k a log'
    | (Throw e, log') => (Throw e, log')
    end.

Definition lift {A} (r : result A) : M A :=
  match r with
  | Ok a => ret a
  | Throw e => throw e
  end.

Declare Scope async_scope.
Delimit Scope async_scope with async.
Notation "x <- c ;; k" := (bind c (fun x => k))
  (at level 100, c at next level, right associativity) : async_scope.
Local Open Scope async_scope.

(** Run a computation from an empty log. *)
Definition run {A} (c : M A) : result A * list Request := c [].

(** ** Synchronous helpers of the language *)

Section Arrays.
Context {A B : Type}.

(** [l.map(f)] for a callback that may throw: the first throw ends it. *)
Fixpoint array_map (f : A -> result B) (l : list A) : result (list B) :=
  match l with
  | [] => Ok []
  | x :: rest =>
      match f x with
      | Throw e => Throw e
      | Ok y =>
          match array_map f rest with
          | Throw e => Throw e
          | Ok ys => Ok (y :: ys)
          end
      end
  end.

(** [l.reduce(f, acc)] for a callback that may throw. *)
Fixpoint array_reduce (f : B -> A -> result B) (l : list A) (acc : B)
  : result B :=
  match l with
  | [] => Ok acc
  | x :: rest =>
      match f acc x with
      | Throw e => Throw e
      | Ok acc' => array_reduce f rest acc'
      end
  end.
End Arrays.

(** The definition of the property [k] of an object, as an object literal
    and its spread do it: an existing property keeps its place, a new one
    goes last. *)
Fixpoint obj_define (k : string) (v : value) (ps : list (string * value))
  : list (string * value) :=
  match ps with
  | [] => [(k, v)]
  | (k', v') :: rest =>
      if String.eqb k' k then (k', v) :: rest
      else (k', v') :: obj_define k v rest
  end.

(** [acc[k] = v] on the properties of a plain object [{}].  The name
    [__proto__] is the accessor inherited from [Object.prototype]: the
    assignment runs its setter, which gives [acc] a prototype and no
    property of its own. *)
Definition obj_set (k : string) (v : value) (ps : list (string * value))
  : list (string * value) :=
  if String.eqb k "__proto__" then ps else obj_define k v ps.

(** [{ ...base, ...params }]: the properties of [params] defined in turn
    over those of [base]. *)
Definition obj_spread (base params : list (string * value))
  : list (string * value) :=
  List.fold_left (fun acc kv => obj_define (fst kv) (snd kv) acc) params base.

Fixpoint obj_get (k : string) (ps : list (string * value)) : option value :=
  match ps with
  | [] => None
  | (k', v) :: rest => if String.eqb k' k then Some v else obj_get k rest
  end.

(** [{ k } = o] for the properties [o] of an argument object. *)
Definition prop (k : string) (ps : list (string * value)) : value :=
  match obj_get k ps with
  | Some x => x
  | None => Undefined
  end.

(** [v.k] (and [const { k } = v]) for the names this module reads from an
    answer: [token], [multipart], [signedUrl], [url].  Reading from
    [null] or [undefined] throws; none of these names is a property of an
    array, a string, a number or a boolean. *)
Definition read_field (v : value) (k : string) : result value :=
  match v with
  | Undefined | Null => Throw TypeError
  | Obj ps => Ok (match obj_get k ps with Some x => x | None => Undefined end)
  | _ => Ok Undefined
  end.

(** ** Types of the arguments *)

(** [FileInfoForUpload] *)
Module FileInfoForUpload.
Record t : Type := {
  size : Z;
  extension : string;
  isPublic : bool;
  path : value;                       (* { key, value }[] *)
  metadata : option (list (string * string));
  replaceTargetUrl : option string
}.
End FileInfoForUpload.

Definition value_of_record (m : list (string * string)) : value :=
  Obj (List.map (fun kv => (fst kv, Str (snd kv))) m).

Definition value_of_optional {A} (f : A -> value) (o : option A) : value :=
  match o with
  | Some a => f a
  | None => Undefined
  end.

(** The part of a router this module reads: [router.buckets], and in each
    bucket [_def.path] and [_def.accessControl].  A path parameter is an
    object from names to functions [() => string]. *)
Definition PathParam : Type := list (string * (unit -> string)).

Module BucketDef.
Record t : Type := {
  path : list PathParam;
  accessControl : value
}.
End BucketDef.

Record Bucket : Type := { _def : BucketDef.t }.

Record AnyRouter : Type := { buckets : list (string * Bucket) }.

(** ** [makeRequest] and the raw SDK *)

Section Sdk.
Context (P : Platform).

Definition API_ENDPOINT : string :=
  match env P !! "EDGE_STORE_API_ENDPOINT" with
  | Some e => e
  | None => "https://api.edgestore.dev"
  end.

(** The request [makeRequest] hands to [fetch]. *)
Definition request_of (body : value) (accessKey secretKey path : string)
  : Request :=
  {| req_url := API_ENDPOINT ++ path;
     req_method := "POST";
     req_body := JSON_stringify body;
     req_headers :=
       [("Content-Type", "application/json");
        ("Authorization",
         "Basic " ++ base64 (accessKey ++ ":" ++ secretKey))] |}.

(** [await fetch(url, init)]: the request is logged, then answered. *)
Definition await_fetch (req : Request) : M Response :=
  fun log =>
    match fetch P req with
    | Some res => (Ok res, (log ++ [req])%list)
    | None => (Throw FetchFailed, (log ++ [req])%list)
    end.

(** [await res.json()] *)
Definition res_json (res : Response) : M value :=
  match JSON_parse P (res_text res) with
  | Some v => ret v
  | None => throw SyntaxError
  end.

Definition makeRequest (body : value) (accessKey secretKey path : string)
  : M value :=
  res <- await_fetch (request_of body accessKey secretKey path) ;;
  if negb (res_ok res) then
    throw (Error ("Failed to make request to " ++ path ++ ": "
                  ++ res_text res))
  else res_json res.

(** The callback of [bucket._def.path.map] in [getToken]. *)
Definition path_segment (p : PathParam) : result value :=
  match p with                        (* Object.entries(p)[0] *)
  | [] => Throw (Error "Missing path param")
  | (key, value) :: _ => Ok (Obj [("key", Str key); ("value", Str (value tt))])
  end.

(** The callback of [Object.entries(router.buckets).reduce] in
    [getToken]. *)
Definition add_bucket (acc : list (string * value))
  (entry : string * Bucket) : result (list (string * value)) :=
  let (bucketName, bucket) := entry in
  match array_map path_segment (BucketDef.path (_def bucket)) with
  | Throw e => Throw e
  | Ok segments =>
      Ok (obj_set bucketName
            (Obj [("path", Arr segments);
                  ("accessControl", BucketDef.accessControl (_def bucket))])
            acc)
  end.

Definition reqBuckets (router : AnyRouter) : result value :=
  match array_reduce add_bucket (buckets router) [] with
  | Throw e => Throw e
  | Ok acc => Ok (Obj acc)
  end.

End Sdk.

Module edgeStoreRawSdk.
(** [listFiles] as it runs on its argument object [arg]: the five names of
    the parameter pattern are read from it, the two keys go into the
    template string of the Authorization header. *)
Definition listFiles_object (P : Platform) (arg : list (string * value))
  : M value :=
  makeRequest P
    (Obj [("bucketName", prop "bucketName" arg);
          ("filter", prop "filter" arg);
          ("pagination", prop "pagination" arg)])
    (template_string (prop "accessKey" arg))
    (template_string (prop "secretKey" arg))
    "/list-files".

Section Operations.
Context (P : Platform) (accessKey secretKey : string).

Definition getToken (ctx : value) (router : AnyRouter) : M value :=
  reqBuckets <- lift (reqBuckets router) ;;
  res <- makeRequest P
           (Obj [("ctx", ctx); ("buckets", reqBuckets)])
           accessKey secretKey "/get-token" ;;
  token <- lift (read_field res "token") ;;
  ret token.

Definition getFile (url : string) : M value :=
  makeRequest P (Obj [("url", Str url)]) accessKey secretKey "/get-file".

Definition requestUpload (bucketName bucketType : string)
  (fileInfo : FileInfoForUpload.t) (multipart : value) : M value :=
  res <- makeRequest P
           (Obj [("multipart", multipart);
                 ("bucketName", Str bucketName);
                 ("bucketType", Str bucketType);
                 ("isPublic", Bool (FileInfoForUpload.isPublic fileInfo));
                 ("path", FileInfoForUpload.path fileInfo);
                 ("extension", Str (FileInfoForUpload.extension fileInfo));
                 ("size", Num (FileInfoForUpload.size fileInfo));
                 ("metadata",
                  value_of_optional value_of_record
                    (FileInfoForUpload.metadata fileInfo));
                 ("replaceTargetUrl",
                  value_of_optional Str
                    (FileInfoForUpload.replaceTargetUrl fileInfo))])
           accessKey secretKey "/request-upload" ;;
  res_multipart <- lift (read_field res "multipart") ;;
  res_signedUrl <- lift (read_field res "signedUrl") ;;
  res_url <- lift (read_field res "url") ;;
  ret (Obj [("multipart", res_multipart);
            ("signedUrl", res_signedUrl);
            ("accessUrl", res_url)]).

Definition requestUploadParts (key : string) (multipart : value)
  : M value :=
  res <- makeRequest P
           (Obj [("multipart", multipart); ("key", Str key)])
           accessKey secretKey "/request-upload-parts" ;;
  res_multipart <- lift (read_field res "multipart") ;;
  ret (Obj [("multipart", res_multipart)]).

Definition deleteFile (url : string) : M value :=
  makeRequest P (Obj [("url", Str url)]) accessKey secretKey
    "/delete-file".

(** [listFiles] called with the five fields of its parameter type. *)
Definition listFiles (bucketName : string) (filter pagination : value)
  : M value :=
  listFiles_object P
    [("accessKey", Str accessKey);
     ("secretKey", Str secretKey);
     ("bucketName", Str bucketName);
     ("filter", filter);
     ("pagination", pagination)].
End Operations.
End edgeStoreRawSdk.

(** ** [initEdgeStoreSdk] *)

(** [EdgeStoreSdk = ReturnType<typeof initEdgeStoreSdk>] *)
Module EdgeStoreSdk.
Record t : Type := {
  getToken : value -> AnyRouter -> M value;
  getFile : string -> M value;
  requestUpload :
    string -> string -> FileInfoForUpload.t -> value -> M value;
  requestUploadParts : string -> value -> M value;
  deleteFile : string -> M value;
  listFiles : list (string * value) -> M value  (* listFiles(params) *)
}.
End EdgeStoreSdk.

(** The argument of [initEdgeStoreSdk]; a key left out is [undefined]. *)
Module InitParams.
Record t : Type := {
  accessKey : option string;
  secretKey : option string
}.
End InitParams.

(** [!s] for [s : string | undefined]. *)
Definition falsy (s : option string) : bool :=
  match s with
  | None => true
  | Some x => String.eqb x ""
  end.

(** A destructuring default [k = d]: [d] is taken when [k] is [undefined]. *)
Definition or_default (k d : option string) : option string :=
  match k with
  | Some x => Some x
  | None => d
  end.

(** The narrowing of [string | undefined] to [string] past the guard. *)
Definition narrowed (s : option string) : string :=
  match s with
  | Some x => x
  | None => ""
  end.

Section Init.
Context (P : Platform).

Definition resolved_accessKey (params : option InitParams.t)
  : option string :=
  or_default
    (match params with                 (* params ?? {} *)
     | Some p => InitParams.accessKey p
     | None => None
     end)
    (env P !! "EDGE_STORE_ACCESS_KEY").

Definition resolved_secretKey (params : option InitParams.t)
  : option string :=
  or_default
    (match params with
     | Some p => InitParams.secretKey p
     | None => None
     end)
    (env P !! "EDGE_STORE_SECRET_KEY").

(** The object [initEdgeStoreSdk] returns, for the two keys it holds. *)
Definition handle (accessKey secretKey : string) : EdgeStoreSdk.t :=
  {| EdgeStoreSdk.getToken := fun ctx router =>
       edgeStoreRawSdk.getToken P accessKey secretKey ctx router;
     EdgeStoreSdk.getFile := fun url =>
       edgeStoreRawSdk.getFile P accessKey secretKey url;
     EdgeStoreSdk.requestUpload :=
       fun bucketName bucketType fileInfo multipart =>
         edgeStoreRawSdk.requestUpload P accessKey secretKey
           bucketName bucketType fileInfo multipart;
     EdgeStoreSdk.requestUploadParts := fun key multipart =>
       edgeStoreRawSdk.requestUploadParts P accessKey secretKey
         key multipart;
     EdgeStoreSdk.deleteFile := fun url =>
       edgeStoreRawSdk.deleteFile P accessKey secretKey url;
     EdgeStoreSdk.listFiles := fun params =>
       edgeStoreRawSdk.listFiles_object P
         (obj_spread
            [("accessKey", Str accessKey); ("secretKey", Str secretKey)]
            params) |}.

Definition initEdgeStoreSdk (params : option InitParams.t)
  : result EdgeStoreSdk.t :=
  let accessKey := resolved_accessKey params in
  let secretKey := resolved_secretKey params in
  if falsy accessKey || falsy secretKey
  then Throw EdgeStoreCredentialsError
  else Ok (handle (narrowed accessKey) (narrowed secretKey)).
End Init.

(** ** The six operations as one family

    The statements below range over "every operation"; [call] names an
    operation together with its arguments, [raw_call] and [sdk_call] apply
    it on the raw SDK and on a handle, [route] is the path it posts to. *)

Inductive call : Type :=
| GetToken (ctx : value) (router : AnyRouter)
| GetFile (url : string)
| RequestUpload (bucketName bucketType : string)
    (fileInfo : FileInfoForUpload.t) (multipart : value)
| RequestUploadParts (key : string) (multipart : value)
| DeleteFile (url : string)
| ListFiles (bucketName : string) (filter pagination : value).

Definition raw_call (P : Platform) (accessKey secretKey : string) (c : call)
  : M value :=
  match c with
  | GetToken ctx router =>
      edgeStoreRawSdk.getToken P accessKey secretKey ctx router
  | GetFile url => edgeStoreRawSdk.getFile P accessKey secretKey url
  | RequestUpload bucketName bucketType fileInfo multipart =>
      edgeStoreRawSdk.requestUpload P accessKey secretKey
        bucketName bucketType fileInfo multipart
  | RequestUploadParts key multipart =>
      edgeStoreRawSdk.requestUploadParts P accessKey secretKey key multipart
  | DeleteFile url => edgeStoreRawSdk.deleteFile P accessKey secretKey url
  | ListFiles bucketName filter pagination =>
      edgeStoreRawSdk.listFiles P accessKey secretKey
        bucketName filter pagination
  end.

Definition sdk_call (sdk : EdgeStoreSdk.t) (c : call) : M value :=
  match c with
  | GetToken ctx router => EdgeStoreSdk.getToken sdk ctx router
  | GetFile url => EdgeStoreSdk.getFile sdk url
  | RequestUpload bucketName bucketType fileInfo multipart =>
      EdgeStoreSdk.requestUpload sdk bucketName bucketType fileInfo multipart
  | RequestUploadParts key multipart =>
      EdgeStoreSdk.requestUploadParts sdk key multipart
  | DeleteFile url => EdgeStoreSdk.deleteFile sdk url
  | ListFiles bucketName filter pagination =>
      EdgeStoreSdk.listFiles sdk
        [("bucketName", Str bucketName);
         ("filter", filter);
         ("pagination", pagination)]
  end.

Definition route (c : call) : string :=
  match c with
  | GetToken _ _ => "/get-token"
  | GetFile _ => "/get-file"
  | RequestUpload _ _ _ _ => "/request-upload"
  | RequestUploadParts _ _ => "/request-upload-parts"
  | DeleteFile _ => "/delete-file"
  | ListFiles _ _ _ => "/list-files"
  end.

(** Every path parameter of every bucket has at least one entry. *)
Definition paths_nonempty (router : AnyRouter) : Prop :=
  Forall (fun entry : string * Bucket =>
            Forall (fun p : PathParam => p <> [])
              (BucketDef.path (_def (snd entry))))
    (buckets router).

(** Some bucket has an empty object among its path parameters. *)
Definition has_empty_path_param (router : AnyRouter) : Prop :=
  exists (bucketName : string) (bucket : Bucket),
    In (bucketName, bucket) (buckets router) /\
    In [] (BucketDef.path (_def bucket)).

(** ** The statements of the specification, in its words *)

(** The key the caller passed explicitly, if any. *)
Definition explicit_accessKey (params : option InitParams.t) : option string :=
  match params with
  | Some p => InitParams.accessKey p
  | None => None
  end.

Definition explicit_secretKey (params : option InitParams.t) : option string :=
  match params with
  | Some p => InitParams.secretKey p
  | None => None
  end.

(** [k] is the key the caller ends with: the explicit one, or the one of
    the environment when none is passed. *)
Definition key_is (explicit from_env : option string) (k : string) : Prop :=
  explicit = Some k \/ (explicit = None /\ from_env = Some k).

(** The [{ key, value }] pair of a path parameter: its entry evaluated. *)
Definition evaluated_segment (p : PathParam) : value :=
  match p with
  | (key, value) :: _ => Obj [("key", Str key); ("value", Str (value tt))]
  | [] => Undefined
  end.

(** [bucketName: { path, accessControl }] for one bucket of the router. *)
Definition bucket_descriptor (entry : string * Bucket) : string * value :=
  (fst entry,
   Obj [("path",
         Arr (List.map evaluated_segment (BucketDef.path (_def (snd entry)))));
        ("accessControl", BucketDef.accessControl (_def (snd entry)))]).

(** The map from each bucket name to its descriptor. *)
Definition buckets_map (router : AnyRouter) : value :=
  Obj (List.map bucket_descriptor (buckets router)).

(** The buckets object as [getToken] builds it: from [{}], each descriptor
    assigned in turn under the name of its bucket. *)
Definition assigned_buckets (router : AnyRouter) : value :=
  Obj (List.fold_left
         (fun acc entry =>
            obj_set (fst entry) (snd (bucket_descriptor entry)) acc)
         (buckets router) []).

(** The names of the buckets of a router are distinct, as the keys of an
    object are. *)
Definition distinct_names (router : AnyRouter) : Prop :=
  List.NoDup (List.map fst (buckets router)).

(** No bucket is named [__proto__]. *)
Definition plain_names (router : AnyRouter) : Prop :=
  ~ In "__proto__" (List.map fst (buckets router)).

(** The router with every path parameter cut down to its first entry. *)
Definition first_entries (router : AnyRouter) : AnyRouter :=
  {| buckets :=
       List.map
         (fun entry : string * Bucket =>
            (fst entry,
             {| _def :=
                  {| BucketDef.path :=
                       List.map (firstn 1) (BucketDef.path (_def (snd entry)));
                     BucketDef.accessControl :=
                       BucketDef.accessControl (_def (snd entry)) |} |}))
         (buckets router) |}.

(** The text [JSON.stringify] adds to an object, after its first member,
    for a property [k] of value [v]: nothing when [v] is [undefined]. *)
Definition json_next_member (k : string) (v : value) : string :=
  match JSON_stringify v with
  | Some t => "," ++ json_quote k ++ ":" ++ t
  | None => ""
  end.

(** The body an operation hands to [makeRequest], when it gets there. *)
Definition body_of (c : call) : result value :=
  match c with
  | GetToken ctx router =>
      match reqBuckets router with
      | Ok b => Ok (Obj [("ctx", ctx); ("buckets", b)])
      | Throw e => Throw e
      end
  | GetFile url | DeleteFile url => Ok (Obj [("url", Str url)])
  | RequestUpload bucketName bucketType fileInfo multipart =>
      Ok (Obj [("multipart", multipart);
               ("bucketName", Str bucketName);
               ("bucketType", Str bucketType);
               ("isPublic", Bool (FileInfoForUpload.isPublic fileInfo));
               ("path", FileInfoForUpload.path fileInfo);
               ("extension", Str (FileInfoForUpload.extension fileInfo));
               ("size", Num (FileInfoForUpload.size fileInfo));
               ("metadata",
                value_of_optional value_of_record
                  (FileInfoForUpload.metadata fileInfo));
               ("replaceTargetUrl",
                value_of_optional Str
                  (FileInfoForUpload.replaceTargetUrl fileInfo))])
  | RequestUploadParts key multipart =>
      Ok (Obj [("multipart", multipart); ("key", Str key)])
  | ListFiles bucketName filter pagination =>
      Ok (Obj [("bucketName", Str bucketName);
               ("filter", filter);
               ("pagination", pagination)])
  end.

(** C2 as the specification words it, for one call: whenever the network
    answers the request of the call with a 2xx status, the call returns
    the text of the answer parsed as JSON. *)
Definition returns_parsed_answer (P : Platform)
  (accessKey secretKey : string) (c : call) : Prop :=
  forall (req : Request) (res : Response),
    snd (run (raw_call P accessKey secretKey c)) = [req] ->
    fetch P req = Some res ->
    res_ok res = true ->
    exists v : value,
      JSON_parse P (res_text res) = Some v /\
      fst (run (raw_call P accessKey secretKey c)) = Ok v.

(** The operation issues a request: every one does, [getToken] when no
    path parameter of the router is empty. *)
Definition sends (c : call) : Prop :=
  match c with
  | GetToken _ router => paths_nonempty router
  | _ => True
  end.

(** What an operation makes of the parsed answer [v]. *)
Definition answer_of (c : call) (v : value) : result value :=
  match c with
  | GetFile _ | DeleteFile _ | ListFiles _ _ _ => Ok v
  | GetToken _ _ => read_field v "token"
  | RequestUpload _ _ _ _ =>
      match read_field v "multipart", read_field v "signedUrl",
            read_field v "url" with
      | Ok m, Ok s, Ok u =>
          Ok (Obj [("multipart", m); ("signedUrl", s); ("accessUrl", u)])
      | _, _, _ => Throw TypeError
      end
  | RequestUploadParts _ _ =>
      match read_field v "multipart" with
      | Ok m => Ok (Obj [("multipart", m)])
      | Throw e => Throw e
      end
  end.

(** ** Sample platforms, used to exercise the statements *)

(** A parser that knows the texts of the values of a table: the text of
    [v] is read back as [v], any other text is rejected. *)
Fixpoint parse_among (table : list value) (text : string) : option value :=
  match table with
  | [] => None
  | v :: rest =>
      match JSON_stringify v with
      | Some t => if String.eqb t text then Some v else parse_among rest text
      | None => parse_among rest text
      end
  end.

Definition sample_env : gmap string string :=
  <["EDGE_STORE_ACCESS_KEY" := "env-access"]>
    (<["EDGE_STORE_SECRET_KEY" := "env-secret"]> ∅).

(** A host whose network answers every request with [res]. *)
Definition host (e : gmap string string) (table : list value)
  (res : Response) : Platform :=
  {| env := e;
     fetch := fun _ => Some res;
     JSON_parse := parse_among table |}.

Definition no_answer : Response := {| res_status := 500; res_text := "" |}.

(** The text of a value. *)
Definition text_of (v : value) : string :=
  match JSON_stringify v with
  | Some t => t
  | None => ""
  end.

Definition token_answer : value := Obj [("token", Str "t")].

Definition upload_answer : value :=
  Obj [("signedUrl", Str "s"); ("url", Str "u")].

(** A host that answers 200 with the text of [v]. *)
Definition host_answering (v : value) : Platform :=
  host sample_env [v] {| res_status := 200; res_text := text_of v |}.

(** A host that answers 200 with a text that is not JSON. *)
Definition host_not_json : Platform :=
  host sample_env [] {| res_status := 200; res_text := "OK" |}.

(** A host whose network rejects every request. *)
Definition host_offline : Platform :=
  {| env := sample_env;
     fetch := fun _ => None;
     JSON_parse := parse_among [] |}.

(** The operations that read a property of the parsed answer: all but
    [getFile], [deleteFile] and [listFiles]. *)
Definition reads_answer (c : call) : Prop :=
  match c with
  | GetFile _ | DeleteFile _ | ListFiles _ _ _ => False
  | _ => True
  end.

Definition sample_fileInfo : FileInfoForUpload.t :=
  {| FileInfoForUpload.size := 1024;
     FileInfoForUpload.extension := "png";
     FileInfoForUpload.isPublic := true;
     FileInfoForUpload.path :=
       Arr [Obj [("key", Str "author"); ("value", Str "u1")]];
     FileInfoForUpload.metadata := None;
     FileInfoForUpload.replaceTargetUrl := None |}.

Definition bucket_of (ps : list PathParam) (ac : value) : Bucket :=
  {| _def := {| BucketDef.path := ps; BucketDef.accessControl := ac |} |}.

(** A router with one bucket whose path holds an empty object. *)
Definition router_empty_param : AnyRouter :=
  {| buckets :=
       [("images", bucket_of [[("author", fun _ => "ctx.userId")]; []] Null)] |}.

(** A router with a bucket named [__proto__], an own property of
    [router.buckets] as a computed key or [JSON.parse] makes one. *)
Definition router_proto : AnyRouter :=
  {| buckets :=
       [("__proto__", bucket_of [[("author", fun _ => "ctx.userId")]] Null);
        ("images", bucket_of [[("type", fun _ => "input.type")]] Null)] |}.

(** An argument of the handle's [listFiles] that carries two keys beside
    the declared [bucketName]. *)
Definition params_with_keys : list (string * value) :=
  [("bucketName", Str "b"); ("accessKey", Str "evil"); ("secretKey", Str "x")].

(** A router with two buckets; a path parameter of the first has two
    entries. *)
Definition router_two : AnyRouter :=
  {| buckets :=
       [("images",
         bucket_of [[("author", fun _ => "ctx.userId");
                     ("extra", fun _ => "ctx.other")];
                    [("type", fun _ => "input.type")]]
           (Obj [("OR", Arr [])]));
        ("files", bucket_of [] Undefined)] |}.

(** * Properties *)

(** ** Credentials *)

(** C1. When, after the environment fallback, the access key or the secret
    key is still absent, [initEdgeStoreSdk] throws
    [EdgeStoreCredentialsError] and returns no handle. *)
Theorem initEdgeStoreSdk_missing_key (P : Platform)
  (params : option InitParams.t) :
  (explicit_accessKey params = None /\
   env P !! "EDGE_STORE_ACCESS_KEY" = None) \/
  (explicit_secretKey params = None /\
   env P !! "EDGE_STORE_SECRET_KEY" = None) ->
  initEdgeStoreSdk P params = Throw EdgeStoreCredentialsError /\
  (forall sdk, initEdgeStoreSdk P params <> Ok sdk).
Proof.
  intros Hmissing.
  assert (Hthrow : initEdgeStoreSdk P params = Throw EdgeStoreCredentialsError).
  { unfold initEdgeStoreSdk, resolved_accessKey, resolved_secretKey.
    fold (explicit_accessKey params). fold (explicit_secretKey params).
    destruct Hmissing as [[Hk He] | [Hk He]]; rewrite Hk, He; cbn.
    - reflexivity.
    - now rewrite orb_true_r. }
  split; [exact Hthrow|].
  intros sdk Hok. rewrite Hthrow in Hok. discriminate.
Qed.

Lemma initEdgeStoreSdk_missing_key_witness :
  initEdgeStoreSdk (host ∅ [] no_answer)
    (Some {| InitParams.accessKey := Some "ak";
             InitParams.secretKey := None |})
  = Throw EdgeStoreCredentialsError.
Proof.
  apply (initEdgeStoreSdk_missing_key (host ∅ [] no_answer)).
  right. split; reflexivity.
Defined.

(** C9. An explicit empty-string key is kept (the environment default is
    for an [undefined] key only), and [initEdgeStoreSdk] then throws
    [EdgeStoreCredentialsError] whatever the environment holds. *)
Theorem initEdgeStoreSdk_empty_key_not_replaced (P : Platform)
  (p : InitParams.t) :
  InitParams.accessKey p = Some "" \/ InitParams.secretKey p = Some "" ->
  (InitParams.accessKey p = Some "" ->
   resolved_accessKey P (Some p) = Some "") /\
  (InitParams.secretKey p = Some "" ->
   resolved_secretKey P (Some p) = Some "") /\
  initEdgeStoreSdk P (Some p) = Throw EdgeStoreCredentialsError.
Proof.
  intros Hempty.
  unfold initEdgeStoreSdk, resolved_accessKey, resolved_secretKey.
  repeat split.
  - intros Hk. now rewrite Hk.
  - intros Hk. now rewrite Hk.
  - destruct Hempty as [Hk | Hk]; rewrite Hk; cbn.
    + reflexivity.
    + now rewrite orb_true_r.
Qed.

Lemma initEdgeStoreSdk_empty_key_not_replaced_witness :
  env (host sample_env [] no_answer) !! "EDGE_STORE_ACCESS_KEY"
    = Some "env-access" /\
  env (host sample_env [] no_answer) !! "EDGE_STORE_SECRET_KEY"
    = Some "env-secret" /\
  initEdgeStoreSdk (host sample_env [] no_answer)
    (Some {| InitParams.accessKey := Some "";
             InitParams.secretKey := Some "sk" |})
  = Throw EdgeStoreCredentialsError.
Proof.
  split; [reflexivity|]. split; [reflexivity|].
  apply (initEdgeStoreSdk_empty_key_not_replaced
           (host sample_env [] no_answer)
           {| InitParams.accessKey := Some "";
              InitParams.secretKey := Some "sk" |}).
  left. reflexivity.
Defined.

(** ** The handle against the raw SDK *)

Lemma falsy_false (s : option string) :
  falsy s = false -> exists x, s = Some x /\ x <> "".
Proof.
  destruct s as [x|]; cbn; [|discriminate].
  intros Hx. exists x. split; [reflexivity|].
  intros ->. discriminate.
Qed.

Lemma initEdgeStoreSdk_Ok (P : Platform) (params : option InitParams.t)
  (sdk : EdgeStoreSdk.t) :
  initEdgeStoreSdk P params = Ok sdk ->
  exists accessKey secretKey,
    resolved_accessKey P params = Some accessKey /\
    resolved_secretKey P params = Some secretKey /\
    accessKey <> "" /\ secretKey <> "" /\
    sdk = handle P accessKey secretKey.
Proof.
  unfold initEdgeStoreSdk.
  destruct (falsy (resolved_accessKey P params)) eqn:Ha; [discriminate|].
  destruct (falsy (resolved_secretKey P params)) eqn:Hs; [discriminate|].
  cbn. intros [= <-].
  destruct (falsy_false _ Ha) as (a & -> & Hane).
  destruct (falsy_false _ Hs) as (s & -> & Hsne).
  exists a, s. repeat split; assumption.
Qed.

Lemma or_default_key_is (explicit from_env : option string) (k : string) :
  or_default explicit from_env = Some k <-> key_is explicit from_env k.
Proof.
  unfold or_default, key_is. destruct explicit as [x|]; split.
  - intros [= ->]. now left.
  - intros [[= ->] | [Hx _]]; [reflexivity | discriminate].
  - intros ->. now right.
  - intros [Hx | [_ ->]]; [discriminate | reflexivity].
Qed.

Lemma resolved_accessKey_key_is (P : Platform)
  (params : option InitParams.t) (k : string) :
  resolved_accessKey P params = Some k <->
  key_is (explicit_accessKey params) (env P !! "EDGE_STORE_ACCESS_KEY") k.
Proof. apply or_default_key_is. Qed.

Lemma resolved_secretKey_key_is (P : Platform)
  (params : option InitParams.t) (k : string) :
  resolved_secretKey P params = Some k <->
  key_is (explicit_secretKey params) (env P !! "EDGE_STORE_SECRET_KEY") k.
Proof. apply or_default_key_is. Qed.

(** *** The spread of [listFiles] *)

Lemma obj_get_define (k k' : string) (v : value)
  (ps : list (string * value)) :
  obj_get k (obj_define k' v ps)
  = if String.eqb k' k then Some v else obj_get k ps.
Proof.
  induction ps as [|[k0 v0] ps IH]; cbn.
  - now destruct (String.eqb k' k).
  - destruct (String.eqb_spec k0 k') as [->|Hne]; cbn.
    + now destruct (String.eqb k' k).
    + rewrite IH. destruct (String.eqb_spec k0 k) as [->|Hne'].
      * destruct (String.eqb_spec k' k) as [->|]; [contradiction|reflexivity].
      * reflexivity.
Qed.

Lemma obj_get_absent (k : string) (ps : list (string * value)) :
  ~ In k (List.map fst ps) -> obj_get k ps = None.
Proof.
  induction ps as [|[k0 v0] ps IH]; cbn; intros Hk; [reflexivity|].
  destruct (String.eqb_spec k0 k) as [->|Hne].
  - exfalso. apply Hk. now left.
  - apply IH. intros Hin. apply Hk. now right.
Qed.

Lemma obj_get_spread (k : string) (params : list (string * value)) :
  forall base : list (string * value),
    List.NoDup (List.map fst params) ->
    obj_get k (obj_spread base params)
    = match obj_get k params with
      | Some v => Some v
      | None => obj_get k base
      end.
Proof.
  unfold obj_spread.
  induction params as [|[k0 v0] params IH]; intros base Hnd; cbn;
    [reflexivity|].
  inversion Hnd as [|? ? Hfresh Hnd']; subst.
  rewrite (IH _ Hnd'), obj_get_define.
  destruct (String.eqb_spec k0 k) as [->|Hne]; [|reflexivity].
  now rewrite (obj_get_absent _ _ Hfresh).
Qed.

Lemma prop_spread (k : string) (base params : list (string * value)) :
  List.NoDup (List.map fst params) ->
  prop k (obj_spread base params)
  = match obj_get k params with
    | Some v => v
    | None => prop k base
    end.
Proof.
  intros Hnd. unfold prop. rewrite (obj_get_spread _ _ _ Hnd).
  now destruct (obj_get k params).
Qed.

Lemma handle_listFiles_declared (P : Platform) (accessKey secretKey : string)
  (params : list (string * value)) (bucketName : string)
  (log : list Request) :
  List.NoDup (List.map fst params) ->
  obj_get "accessKey" params = None ->
  obj_get "secretKey" params = None ->
  obj_get "bucketName" params = Some (Str bucketName) ->
  EdgeStoreSdk.listFiles (handle P accessKey secretKey) params log
  = edgeStoreRawSdk.listFiles P accessKey secretKey bucketName
      (prop "filter" params) (prop "pagination" params) log.
Proof.
  intros Hnd Ha Hs Hb. cbn.
  unfold edgeStoreRawSdk.listFiles, edgeStoreRawSdk.listFiles_object.
  rewrite !(prop_spread _ _ _ Hnd), Ha, Hs, Hb. cbn.
  unfold prop at 1 2.
  destruct (obj_get "filter" params), (obj_get "pagination" params);
    reflexivity.
Qed.

(** C8, at the input where the code departs from it.  The handle's
    [listFiles] spreads its argument after the two bound keys, so keys
    carried by the argument replace them: over [{ bucketName: b,
    accessKey: evil, secretKey: x }] the handle made for [ak], [sk] posts
    the request of the raw [listFiles] called with [evil], [x], authorized
    as [evil:x], and not the one of the bound keys. *)
Theorem handle_listFiles_keys_overridden :
  initEdgeStoreSdk (host sample_env [] no_answer)
    (Some {| InitParams.accessKey := Some "ak";
             InitParams.secretKey := Some "sk" |})
  = Ok (handle (host sample_env [] no_answer) "ak" "sk") /\
  snd (run (EdgeStoreSdk.listFiles
              (handle (host sample_env [] no_answer) "ak" "sk")
              params_with_keys))
  = [{| req_url := "https://api.edgestore.dev/list-files";
        req_method := "POST";
        req_body := Some ("{" ++ json_quote "bucketName" ++ ":"
                          ++ json_quote "b" ++ "}");
        req_headers :=
          [("Content-Type", "application/json");
           ("Authorization", "Basic " ++ base64 "evil:x")] |}] /\
  run (EdgeStoreSdk.listFiles
         (handle (host sample_env [] no_answer) "ak" "sk") params_with_keys)
  = run (edgeStoreRawSdk.listFiles (host sample_env [] no_answer)
           "evil" "x" "b" Undefined Undefined) /\
  snd (run (EdgeStoreSdk.listFiles
              (handle (host sample_env [] no_answer) "ak" "sk")
              params_with_keys))
  <> snd (run (edgeStoreRawSdk.listFiles (host sample_env [] no_answer)
                 "ak" "sk" "b" Undefined Undefined)).
Proof.
  split; [reflexivity|]. split; [reflexivity|]. split; [reflexivity|].
  intros Heq. discriminate Heq.
Qed.

(** ** [makeRequest] *)

Section MakeRequest.
Context (P : Platform) (body : value) (accessKey secretKey path : string).

Lemma makeRequest_log (log : list Request) :
  snd (makeRequest P body accessKey secretKey path log)
  = (log ++ [request_of P body accessKey secretKey path])%list.
Proof.
  unfold makeRequest, bind, await_fetch.
  destruct (fetch P (request_of P body accessKey secretKey path)) as [res|];
    [|reflexivity].
  destruct (res_ok res); cbn; [|reflexivity].
  unfold res_json. now destruct (JSON_parse P (res_text res)).
Qed.

Lemma makeRequest_rejected (log : list Request) :
  fetch P (request_of P body accessKey secretKey path) = None ->
  makeRequest P body accessKey secretKey path log
  = (Throw FetchFailed,
     (log ++ [request_of P body accessKey secretKey path])%list).
Proof.
  intros Hf. unfold makeRequest, bind, await_fetch.
  now rewrite Hf.
Qed.

Lemma makeRequest_not_ok (log : list Request) (res : Response) :
  fetch P (request_of P body accessKey secretKey path) = Some res ->
  res_ok res = false ->
  makeRequest P body accessKey secretKey path log
  = (Throw (Error ("Failed to make request to " ++ path ++ ": "
                   ++ res_text res)),
     (log ++ [request_of P body accessKey secretKey path])%list).
Proof.
  intros Hf Hok. unfold makeRequest, bind, await_fetch.
  now rewrite Hf, Hok.
Qed.

Lemma makeRequest_ok (log : list Request) (res : Response) (v : value) :
  fetch P (request_of P body accessKey secretKey path) = Some res ->
  res_ok res = true ->
  JSON_parse P (res_text res) = Some v ->
  makeRequest P body accessKey secretKey path log
  = (Ok v, (log ++ [request_of P body accessKey secretKey path])%list).
Proof.
  intros Hf Hok Hv. unfold makeRequest, bind, await_fetch.
  rewrite Hf, Hok. cbn. unfold res_json. now rewrite Hv.
Qed.

Lemma makeRequest_not_json (log : list Request) (res : Response) :
  fetch P (request_of P body accessKey secretKey path) = Some res ->
  res_ok res = true ->
  JSON_parse P (res_text res) = None ->
  makeRequest P body accessKey secretKey path log
  = (Throw SyntaxError,
     (log ++ [request_of P body accessKey secretKey path])%list).
Proof.
  intros Hf Hok Hv. unfold makeRequest, bind, await_fetch.
  rewrite Hf, Hok. cbn. unfold res_json. now rewrite Hv.
Qed.
End MakeRequest.

(** ** The buckets of [getToken] *)

Lemma obj_define_fresh (k : string) (v : value)
  (ps : list (string * value)) :
  ~ In k (List.map fst ps) -> obj_define k v ps = (ps ++ [(k, v)])%list.
Proof.
  induction ps as [|[k' v'] ps IH]; cbn; intros Hfresh; [reflexivity|].
  destruct (String.eqb_spec k' k) as [->|Hne].
  - exfalso. apply Hfresh. now left.
  - f_equal. apply IH. intros Hin. apply Hfresh. now right.
Qed.

Lemma path_segment_throws (p : PathParam) (e : error) :
  path_segment p = Throw e -> p = [] /\ e = Error "Missing path param".
Proof.
  destruct p as [|[key value] rest]; cbn; intros [= <-]. now split.
Qed.

Lemma array_map_path_segment_throws (l : list PathParam) (e : error) :
  array_map path_segment l = Throw e -> e = Error "Missing path param".
Proof.
  induction l as [|p l IH]; cbn; [discriminate|].
  destruct (path_segment p) eqn:Hp.
  - destruct (array_map path_segment l); [discriminate|].
    intros [= <-]. now apply IH.
  - intros [= <-]. now apply path_segment_throws in Hp.
Qed.

Lemma array_map_path_segment_empty (l : list PathParam) :
  In [] l -> array_map path_segment l = Throw (Error "Missing path param").
Proof.
  induction l as [|p l IH]; cbn; [tauto|].
  intros [-> | Hin]; [reflexivity|].
  destruct (path_segment p) eqn:Hp.
  - now rewrite (IH Hin).
  - now apply path_segment_throws in Hp as [_ ->].
Qed.

Lemma array_map_path_segment_nonempty (l : list PathParam) :
  Forall (fun p : PathParam => p <> []) l ->
  array_map path_segment l = Ok (List.map evaluated_segment l).
Proof.
  induction 1 as [|p l Hp _ IH]; cbn; [reflexivity|].
  destruct p as [|[key value] rest]; [contradiction|]. cbn.
  now rewrite IH.
Qed.

Lemma add_bucket_throws (acc : list (string * value))
  (entry : string * Bucket) (e : error) :
  add_bucket acc entry = Throw e -> e = Error "Missing path param".
Proof.
  destruct entry as [bucketName bucket]. cbn.
  destruct (array_map path_segment _) eqn:Hm; [discriminate|].
  intros [= <-]. now apply array_map_path_segment_throws in Hm.
Qed.

Lemma array_reduce_add_bucket_empty (bs : list (string * Bucket)) :
  forall acc : list (string * value),
    (exists bucketName bucket,
        In (bucketName, bucket) bs /\ In [] (BucketDef.path (_def bucket))) ->
    array_reduce add_bucket bs acc = Throw (Error "Missing path param").
Proof.
  induction bs as [|entry bs IH]; intros acc (n & b & Hin & Hempty).
  - destruct Hin.
  - cbn. destruct (add_bucket acc entry) as [acc'|e] eqn:Hadd.
    + destruct Hin as [-> | Hin].
      * cbn in Hadd.
        now rewrite (array_map_path_segment_empty _ Hempty) in Hadd.
      * apply IH. now exists n, b.
    + now apply add_bucket_throws in Hadd as ->.
Qed.

Lemma obj_set_plain (k : string) (v : value) (ps : list (string * value)) :
  k <> "__proto__" -> obj_set k v ps = obj_define k v ps.
Proof.
  intros Hk. unfold obj_set.
  now destruct (String.eqb_spec k "__proto__").
Qed.

Lemma array_reduce_add_bucket_assigned (bs : list (string * Bucket)) :
  forall acc : list (string * value),
    Forall (fun entry : string * Bucket =>
              Forall (fun p : PathParam => p <> [])
                (BucketDef.path (_def (snd entry)))) bs ->
    array_reduce add_bucket bs acc
    = Ok (List.fold_left
            (fun acc entry =>
               obj_set (fst entry) (snd (bucket_descriptor entry)) acc)
            bs acc).
Proof.
  induction bs as [|[bucketName bucket] bs IH]; intros acc Hne; cbn;
    [reflexivity|].
  inversion Hne as [|? ? Hhead Htail]; subst. cbn in Hhead.
  rewrite (array_map_path_segment_nonempty _ Hhead).
  now apply IH.
Qed.

Lemma assigned_plain (bs : list (string * Bucket)) :
  forall acc : list (string * value),
    List.NoDup (List.map fst acc ++ List.map fst bs) ->
    ~ In "__proto__" (List.map fst bs) ->
    List.fold_left
      (fun acc entry =>
         obj_set (fst entry) (snd (bucket_descriptor entry)) acc)
      bs acc
    = (acc ++ List.map bucket_descriptor bs)%list.
Proof.
  induction bs as [|[bucketName bucket] bs IH]; intros acc Hnd Hplain; cbn.
  - now rewrite List.app_nil_r.
  - cbn in Hnd, Hplain.
    destruct (List.NoDup_remove _ _ _ Hnd) as [_ Hfresh].
    rewrite obj_set_plain by (intros ->; apply Hplain; now left).
    rewrite obj_define_fresh
      by (intros Hin; apply Hfresh; apply List.in_or_app; now left).
    rewrite IH.
    + now rewrite <- List.app_assoc.
    + rewrite List.map_app. cbn. now rewrite <- List.app_assoc.
    + intros Hin. apply Hplain. now right.
Qed.

Lemma reqBuckets_empty (router : AnyRouter) :
  has_empty_path_param router ->
  reqBuckets router = Throw (Error "Missing path param").
Proof.
  intros Hempty. unfold reqBuckets.
  now rewrite (array_reduce_add_bucket_empty _ [] Hempty).
Qed.

Lemma reqBuckets_assigned (router : AnyRouter) :
  paths_nonempty router -> reqBuckets router = Ok (assigned_buckets router).
Proof.
  intros Hne. unfold reqBuckets.
  now rewrite (array_reduce_add_bucket_assigned _ [] Hne).
Qed.

Lemma reqBuckets_nonempty (router : AnyRouter) :
  distinct_names router -> plain_names router -> paths_nonempty router ->
  reqBuckets router = Ok (buckets_map router).
Proof.
  intros Hnd Hplain Hne. rewrite (reqBuckets_assigned _ Hne).
  unfold assigned_buckets. now rewrite (assigned_plain _ [] Hnd Hplain).
Qed.

Lemma getToken_log (P : Platform) (accessKey secretKey : string)
  (ctx : value) (router : AnyRouter) (log : list Request) (b : value) :
  reqBuckets router = Ok b ->
  snd (edgeStoreRawSdk.getToken P accessKey secretKey ctx router log)
  = (log ++
     [request_of P (Obj [("ctx", ctx); ("buckets", b)])
        accessKey secretKey "/get-token"])%list.
Proof.
  intros Hb.
  unfold edgeStoreRawSdk.getToken, bind at 1. rewrite Hb. cbn.
  unfold bind.
  pose proof (makeRequest_log P (Obj [("ctx", ctx); ("buckets", b)])
                accessKey secretKey "/get-token" log) as Hlog.
  destruct (makeRequest P _ accessKey secretKey "/get-token" log)
    as [[res|e] log']; cbn in Hlog |- *; [|exact Hlog].
  destruct (read_field res "token"); exact Hlog.
Qed.

(** C4. Over a router one of whose buckets has an empty object among its
    path parameters, [getToken] fails before any request is sent: it
    throws and the log of requests is left as it was. *)
Theorem getToken_empty_path_param (P : Platform)
  (accessKey secretKey : string) (ctx : value) (router : AnyRouter)
  (log : list Request) :
  has_empty_path_param router ->
  edgeStoreRawSdk.getToken P accessKey secretKey ctx router log
  = (Throw (Error "Missing path param"), log).
Proof.
  intros Hempty. unfold edgeStoreRawSdk.getToken, bind.
  now rewrite (reqBuckets_empty _ Hempty).
Qed.

Lemma router_empty_param_has_empty : has_empty_path_param router_empty_param.
Proof.
  exists "images", (bucket_of [[("author", fun _ => "ctx.userId")]; []] Null).
  split; [now left | cbn; tauto].
Qed.

Lemma getToken_empty_path_param_witness :
  run (edgeStoreRawSdk.getToken (host_answering token_answer)
         "ak" "sk" Null router_empty_param)
  = (Throw (Error "Missing path param"), []).
Proof.
  apply (getToken_empty_path_param (host_answering token_answer)
           "ak" "sk" Null router_empty_param []).
  exact router_empty_param_has_empty.
Defined.

Lemma router_two_distinct : distinct_names router_two.
Proof.
  unfold distinct_names. cbn.
  repeat constructor; cbn; intuition discriminate.
Qed.

Lemma router_two_plain : plain_names router_two.
Proof. unfold plain_names. cbn. intuition discriminate. Qed.

Lemma router_two_nonempty : paths_nonempty router_two.
Proof.
  unfold paths_nonempty. cbn.
  repeat constructor; discriminate.
Qed.

Lemma router_proto_distinct : distinct_names router_proto.
Proof.
  unfold distinct_names. cbn.
  repeat constructor; cbn; intuition discriminate.
Qed.

Lemma router_proto_nonempty : paths_nonempty router_proto.
Proof.
  unfold paths_nonempty. cbn.
  repeat constructor; discriminate.
Qed.

(** C5, at the input where the code departs from it.  Over a router with
    distinct bucket names and no empty path parameter, one bucket being
    named [__proto__], the assignment [acc[bucketName] = ...] on the
    accumulator [{}] runs the prototype setter: the buckets object that is
    posted has no [__proto__] member, and is not the map from each bucket
    name to its descriptor. *)
Theorem getToken_drops_proto_bucket :
  distinct_names router_proto /\
  paths_nonempty router_proto /\
  reqBuckets router_proto
  = Ok (Obj [("images",
              Obj [("path",
                    Arr [Obj [("key", Str "type");
                              ("value", Str "input.type")]]);
                   ("accessControl", Null)])]) /\
  reqBuckets router_proto <> Ok (buckets_map router_proto) /\
  snd (run (edgeStoreRawSdk.getToken (host_answering token_answer)
              "ak" "sk" Null router_proto))
  = [{| req_url := "https://api.edgestore.dev/get-token";
        req_method := "POST";
        req_body :=
          JSON_stringify
            (Obj [("ctx", Null);
                  ("buckets",
                   Obj [("images",
                         Obj [("path",
                               Arr [Obj [("key", Str "type");
                                         ("value", Str "input.type")]]);
                              ("accessControl", Null)])])]);
        req_headers :=
          [("Content-Type", "application/json");
           ("Authorization", "Basic " ++ base64 "ak:sk")] |}].
Proof.
  split; [exact router_proto_distinct|].
  split; [exact router_proto_nonempty|].
  split; [reflexivity|]. split; [|reflexivity].
  intros Heq. discriminate Heq.
Qed.

(** ** Path parameters with several entries *)

Lemma path_segment_firstn (p : PathParam) :
  path_segment (firstn 1 p) = path_segment p.
Proof. now destruct p as [|[key value] rest]. Qed.

Lemma array_map_path_segment_firstn (l : list PathParam) :
  array_map path_segment (List.map (firstn 1) l) = array_map path_segment l.
Proof.
  induction l as [|p l IH]; cbn; [reflexivity|].
  now rewrite path_segment_firstn, IH.
Qed.

Lemma reqBuckets_first_entries (router : AnyRouter) :
  reqBuckets (first_entries router) = reqBuckets router.
Proof.
  unfold reqBuckets, first_entries. cbn.
  generalize (@nil (string * value)).
  induction (buckets router) as [|[bucketName bucket] bs IH]; intros acc;
    cbn; [reflexivity|].
  rewrite array_map_path_segment_firstn.
  destruct (array_map path_segment (BucketDef.path (_def bucket)));
    [apply IH | reflexivity].
Qed.

(** C10. Of a path parameter with several entries [getToken] takes the
    first one only.  The segment the callback makes has the first name and
    the value of the first function; the call is the one made over the
    router whose path parameters are cut down to their first entry; and
    whenever no path parameter is empty, the request posted to
    [/get-token] carries, for each bucket, the segments of the first
    entries and nothing of the others. *)
Theorem getToken_first_entry_only (P : Platform)
  (accessKey secretKey : string) (ctx : value) (router : AnyRouter) :
  (forall (key : string) (value : unit -> string) (rest : PathParam),
      path_segment ((key, value) :: rest)
      = Ok (Obj [("key", Str key); ("value", Str (value tt))])) /\
  (forall log : list Request,
      edgeStoreRawSdk.getToken P accessKey secretKey ctx router log
      = edgeStoreRawSdk.getToken P accessKey secretKey ctx
          (first_entries router) log) /\
  (paths_nonempty router ->
   forall log : list Request,
     snd (edgeStoreRawSdk.getToken P accessKey secretKey ctx router log)
     = List.app log
         [{| req_url :=
               match env P !! "EDGE_STORE_API_ENDPOINT" with
               | Some endpoint => endpoint
               | None => "https://api.edgestore.dev"
               end ++ "/get-token";
             req_method := "POST";
             req_body :=
               JSON_stringify
                 (Obj [("ctx", ctx);
                       ("buckets",
                        Obj (List.fold_left
                               (fun acc entry =>
                                  obj_set (fst entry)
                                    (Obj [("path",
                                           Arr (List.map
                                                  (fun p : PathParam =>
                                                     match p with
                                                     | (key, value) :: _ =>
                                                         Obj [("key", Str key);
                                                              ("value",
                                                               Str (value tt))]
                                                     | [] => Undefined
                                                     end)
                                                  (BucketDef.path
                                                     (_def (snd entry)))));
                                          ("accessControl",
                                           BucketDef.accessControl
                                             (_def (snd entry)))])
                                    acc)
                               (buckets router) []))]);
             req_headers :=
               [("Content-Type", "application/json");
                ("Authorization",
                 "Basic " ++ base64 (accessKey ++ ":" ++ secretKey))] |}]).
Proof.
  split; [reflexivity|]. split.
  - intros log. unfold edgeStoreRawSdk.getToken.
    now rewrite reqBuckets_first_entries.
  - intros Hne log.
    now rewrite (getToken_log _ _ _ _ _ _ _ (reqBuckets_assigned _ Hne)).
Qed.

Lemma getToken_first_entry_only_witness :
  snd (run (edgeStoreRawSdk.getToken (host_answering token_answer)
              "ak" "sk" Null router_two))
  = [{| req_url := "https://api.edgestore.dev/get-token";
        req_method := "POST";
        req_body :=
          JSON_stringify
            (Obj [("ctx", Null);
                  ("buckets",
                   Obj [("images",
                         Obj [("path",
                               Arr [Obj [("key", Str "author");
                                         ("value", Str "ctx.userId")];
                                    Obj [("key", Str "type");
                                         ("value", Str "input.type")]]);
                              ("accessControl", Obj [("OR", Arr [])])]);
                        ("files",
                         Obj [("path", Arr []);
                              ("accessControl", Undefined)])])]);
        req_headers :=
          [("Content-Type", "application/json");
           ("Authorization", "Basic " ++ base64 "ak:sk")] |}].
Proof.
  apply (proj2 (proj2 (getToken_first_entry_only
                         (host_answering token_answer) "ak" "sk" Null
                         router_two))
           router_two_nonempty []).
Defined.

(** ** Every operation is one [makeRequest] and a reading of its answer *)

Lemma log_not_extended (log : list Request) (req : Request) :
  log <> (log ++ [req])%list.
Proof.
  intros Heq. apply (f_equal (@length Request)) in Heq.
  rewrite List.length_app in Heq. cbn in Heq. lia.
Qed.

Lemma log_extended_inj (log : list Request) (req req' : Request) :
  (log ++ [req])%list = (log ++ [req'])%list -> req = req'.
Proof. intros Heq. apply List.app_inv_head in Heq. now injection Heq. Qed.

Lemma listFiles_declared (P : Platform) (accessKey secretKey : string)
  (bucketName : string) (filter pagination : value) :
  edgeStoreRawSdk.listFiles P accessKey secretKey
    bucketName filter pagination
  = makeRequest P
      (Obj [("bucketName", Str bucketName);
            ("filter", filter);
            ("pagination", pagination)])
      accessKey secretKey "/list-files".
Proof. reflexivity. Qed.

Lemma array_reduce_add_bucket_total (bs : list (string * Bucket)) :
  forall acc : list (string * value),
    Forall (fun entry : string * Bucket =>
              Forall (fun p : PathParam => p <> [])
                (BucketDef.path (_def (snd entry)))) bs ->
    exists acc', array_reduce add_bucket bs acc = Ok acc'.
Proof.
  induction bs as [|[bucketName bucket] bs IH]; intros acc Hne; cbn.
  - now exists acc.
  - inversion Hne as [|? ? Hhead Htail]; subst. cbn in Hhead.
    rewrite (array_map_path_segment_nonempty _ Hhead). now apply IH.
Qed.

Lemma reqBuckets_total (router : AnyRouter) :
  paths_nonempty router -> exists b, reqBuckets router = Ok b.
Proof.
  intros Hne. unfold reqBuckets.
  destruct (array_reduce_add_bucket_total _ [] Hne) as [acc ->].
  now exists (Obj acc).
Qed.

Lemma raw_call_factored (P : Platform) (accessKey secretKey : string)
  (c : call) (log : list Request) :
  raw_call P accessKey secretKey c log
  = match body_of c with
    | Throw e => (Throw e, log)
    | Ok body =>
        match makeRequest P body accessKey secretKey (route c) log with
        | (Ok v, log') => (answer_of c v, log')
        | (Throw e, log') => (Throw e, log')
        end
    end.
Proof.
  destruct c; cbn.
  - unfold edgeStoreRawSdk.getToken, bind at 1.
    destruct (reqBuckets router) as [b|e]; cbn; [|reflexivity].
    unfold bind.
    destruct (makeRequest P _ accessKey secretKey "/get-token" log)
      as [[v|e] log']; [|reflexivity].
    now destruct (read_field v "token").
  - unfold edgeStoreRawSdk.getFile.
    now destruct (makeRequest P _ accessKey secretKey "/get-file" log)
      as [[v|e] log'].
  - unfold edgeStoreRawSdk.requestUpload, bind.
    destruct (makeRequest P _ accessKey secretKey "/request-upload" log)
      as [[v|e] log']; [|reflexivity].
    now destruct v.
  - unfold edgeStoreRawSdk.requestUploadParts, bind.
    destruct (makeRequest P _ accessKey secretKey "/request-upload-parts" log)
      as [[v|e] log']; [|reflexivity].
    now destruct v.
  - unfold edgeStoreRawSdk.deleteFile.
    now destruct (makeRequest P _ accessKey secretKey "/delete-file" log)
      as [[v|e] log'].
  - rewrite listFiles_declared.
    now destruct (makeRequest P _ accessKey secretKey "/list-files" log)
      as [[v|e] log'].
Qed.

Lemma raw_call_log (P : Platform) (accessKey secretKey : string)
  (c : call) (log : list Request) (body : value) :
  body_of c = Ok body ->
  snd (raw_call P accessKey secretKey c log)
  = (log ++ [request_of P body accessKey secretKey (route c)])%list.
Proof.
  intros Hb. rewrite raw_call_factored, Hb.
  pose proof (makeRequest_log P body accessKey secretKey (route c) log) as Hl.
  now destruct (makeRequest P body accessKey secretKey (route c) log)
    as [[v|e] log'].
Qed.

Lemma sends_body (c : call) : sends c -> exists body, body_of c = Ok body.
Proof.
  destruct c; cbn; intros Hs; try (eexists; reflexivity).
  destruct (reqBuckets_total _ Hs) as [b ->]. eexists; reflexivity.
Qed.

(** C3, as the code has it. Each operation that gets to its request
    ([getToken] over a router with no empty path parameter, and the five
    others always) issues exactly one request: a POST to the base endpoint
    followed by the route of the operation, the base endpoint being
    [EDGE_STORE_API_ENDPOINT] when set and [https://api.edgestore.dev]
    otherwise, with the headers [Content-Type: application/json] and
    [Authorization: Basic base64(accessKey:secretKey)]. *)
Theorem operation_posts_once (P : Platform) (accessKey secretKey : string)
  (c : call) (log : list Request) :
  sends c ->
  exists body : option string,
    snd (raw_call P accessKey secretKey c log)
    = List.app log
        [{| req_url :=
              match env P !! "EDGE_STORE_API_ENDPOINT" with
              | Some endpoint => endpoint
              | None => "https://api.edgestore.dev"
              end ++ route c;
            req_method := "POST";
            req_body := body;
            req_headers :=
              [("Content-Type", "application/json");
               ("Authorization",
                "Basic " ++ base64 (accessKey ++ ":" ++ secretKey))] |}].
Proof.
  intros Hs. destruct (sends_body _ Hs) as [body Hb].
  exists (JSON_stringify body).
  now rewrite (raw_call_log _ _ _ _ _ _ Hb).
Qed.

Lemma operation_posts_once_witness :
  exists body : option string,
    snd (run (raw_call (host_answering token_answer) "ak" "sk"
                (GetToken Null router_two)))
    = [{| req_url := "https://api.edgestore.dev/get-token";
          req_method := "POST";
          req_body := body;
          req_headers :=
            [("Content-Type", "application/json");
             ("Authorization", "Basic YWs6c2s=")] |}].
Proof.
  apply (operation_posts_once (host_answering token_answer) "ak" "sk"
           (GetToken Null router_two) []).
  exact router_two_nonempty.
Defined.

(** C3 as stated fails: [getToken] over a router with an empty path
    parameter issues no request at all. *)
Lemma getToken_may_post_nothing :
  ~ exists req : Request,
      snd (run (raw_call (host_answering token_answer) "ak" "sk"
                  (GetToken Null router_empty_param)))
      = [req].
Proof. intros [req Hreq]. discriminate Hreq. Qed.

(** C2, as the code has it. Let an operation issue its request and the
    network answer it.  On a status outside 200-299 the operation throws
    an [Error] whose message holds the route and the text of the answer.
    On a status inside, the text is parsed with no validation of its
    shape: when it is JSON, [getFile], [deleteFile] and [listFiles] return
    the parsed value, and [getToken], [requestUpload] and
    [requestUploadParts] return what [answer_of] reads from it; when it is
    not JSON the operation throws the parser's error. *)
Theorem operation_outcome (P : Platform) (accessKey secretKey : string)
  (c : call) (log : list Request) (req : Request) (res : Response) :
  snd (raw_call P accessKey secretKey c log) = (log ++ [req])%list ->
  fetch P req = Some res ->
  (res_ok res = false ->
   fst (raw_call P accessKey secretKey c log)
   = Throw (Error ("Failed to make request to " ++ route c ++ ": "
                   ++ res_text res))) /\
  (res_ok res = true ->
   forall v : value,
     JSON_parse P (res_text res) = Some v ->
     fst (raw_call P accessKey secretKey c log) = answer_of c v) /\
  (res_ok res = true ->
   JSON_parse P (res_text res) = None ->
   fst (raw_call P accessKey secretKey c log) = Throw SyntaxError).
Proof.
  intros Hlog Hfetch.
  destruct (body_of c) as [body|e] eqn:Hb.
  - rewrite (raw_call_log _ _ _ _ _ _ Hb) in Hlog.
    apply log_extended_inj in Hlog. subst req.
    rewrite raw_call_factored, Hb.
    split; [|split].
    + intros Hok. now rewrite (makeRequest_not_ok _ _ _ _ _ _ _ Hfetch Hok).
    + intros Hok v Hv.
      now rewrite (makeRequest_ok _ _ _ _ _ _ _ _ Hfetch Hok Hv).
    + intros Hok Hv.
      now rewrite (makeRequest_not_json _ _ _ _ _ _ _ Hfetch Hok Hv).
  - rewrite raw_call_factored, Hb in Hlog. cbn in Hlog.
    now apply log_not_extended in Hlog.
Qed.

Lemma operation_outcome_witness :
  fst (run (raw_call (host_answering token_answer) "ak" "sk"
              (GetToken Null router_two)))
  = Ok (Str "t").
Proof.
  refine (proj1 (proj2 (operation_outcome (host_answering token_answer)
                          "ak" "sk" (GetToken Null router_two) []
                          (request_of (host_answering token_answer)
                             (Obj [("ctx", Null);
                                   ("buckets", buckets_map router_two)])
                             "ak" "sk" "/get-token")
                          {| res_status := 200;
                             res_text := text_of token_answer |}
                          _ _)) _ token_answer _); reflexivity.
Defined.

(** C2 as stated fails twice: a 2xx answer whose text is not JSON makes
    [getFile] throw, and of the answer [{ token: t }] [getToken] returns
    [t], not the parsed object. *)
Lemma ok_answer_not_always_returned :
  ~ returns_parsed_answer host_not_json "ak" "sk" (GetFile "u") /\
  ~ returns_parsed_answer (host_answering token_answer) "ak" "sk"
      (GetToken Null router_two).
Proof.
  split; intros Hclaim.
  - destruct (Hclaim _ {| res_status := 200; res_text := "OK" |}
                eq_refl eq_refl eq_refl) as (v & Hv & _).
    discriminate Hv.
  - destruct (Hclaim _ {| res_status := 200;
                          res_text := text_of token_answer |}
                eq_refl eq_refl eq_refl) as (v & Hv & Hres).
    cbv in Hv. injection Hv as <-. discriminate Hres.
Qed.

(** ** Answers and bodies of single operations *)

Lemma raw_call_ok (P : Platform) (accessKey secretKey : string)
  (c : call) (log : list Request) (body : value) (res : Response)
  (v : value) :
  body_of c = Ok body ->
  fetch P (request_of P body accessKey secretKey (route c)) = Some res ->
  res_ok res = true ->
  JSON_parse P (res_text res) = Some v ->
  fst (raw_call P accessKey secretKey c log) = answer_of c v.
Proof.
  intros Hb Hfetch Hok Hv.
  rewrite raw_call_factored, Hb.
  now rewrite (makeRequest_ok _ _ _ _ _ _ _ _ Hfetch Hok Hv).
Qed.

Lemma string_app_assoc (s1 s2 s3 : string) :
  (s1 ++ s2) ++ s3 = s1 ++ (s2 ++ s3).
Proof.
  induction s1 as [|c s1 IH]; [reflexivity|].
  change (String c ((s1 ++ s2) ++ s3) = String c (s1 ++ (s2 ++ s3))).
  now rewrite IH.
Qed.

Lemma JSON_stringify_Obj (ps : list (string * value)) :
  JSON_stringify (Obj ps) = Some ("{" ++ comma_join (json_members ps) ++ "}").
Proof.
  reflexivity.
Qed.

Lemma listFiles_body_text (bucketName : string) (filter pagination : value) :
  JSON_stringify (Obj [("bucketName", Str bucketName);
                       ("filter", filter);
                       ("pagination", pagination)])
  = Some ("{" ++ json_quote "bucketName" ++ ":" ++ json_quote bucketName
          ++ json_next_member "filter" filter
          ++ json_next_member "pagination" pagination ++ "}").
Proof.
  rewrite JSON_stringify_Obj. unfold json_next_member. cbn.
  destruct (JSON_stringify filter) as [f|];
    destruct (JSON_stringify pagination) as [p|]; cbn;
    now rewrite !string_app_assoc.
Qed.

(** C6. When the backend answers [requestUpload] with a 2xx status and a
    JSON object, the wrapper returns [{ multipart, signedUrl, accessUrl }]
    where [accessUrl] is the [url] of the answer and [multipart] and
    [signedUrl] are its properties of the same names; for the answer
    [{ signedUrl: s, url: u }] that is
    [{ multipart: undefined, signedUrl: s, accessUrl: u }]. *)
Theorem requestUpload_result (P : Platform) (accessKey secretKey : string)
  (bucketName bucketType : string) (fileInfo : FileInfoForUpload.t)
  (multipart : value) (log : list Request) (req : Request) (res : Response)
  (v : value) :
  snd (edgeStoreRawSdk.requestUpload P accessKey secretKey
         bucketName bucketType fileInfo multipart log)
  = (log ++ [req])%list ->
  fetch P req = Some res ->
  res_ok res = true ->
  JSON_parse P (res_text res) = Some v ->
  (forall s u : string,
      v = Obj [("signedUrl", Str s); ("url", Str u)] ->
      fst (edgeStoreRawSdk.requestUpload P accessKey secretKey
             bucketName bucketType fileInfo multipart log)
      = Ok (Obj [("multipart", Undefined);
                 ("signedUrl", Str s);
                 ("accessUrl", Str u)])) /\
  (forall ps : list (string * value),
      v = Obj ps ->
      fst (edgeStoreRawSdk.requestUpload P accessKey secretKey
             bucketName bucketType fileInfo multipart log)
      = Ok (Obj [("multipart",
                  match obj_get "multipart" ps with
                  | Some x => x
                  | None => Undefined
                  end);
                 ("signedUrl",
                  match obj_get "signedUrl" ps with
                  | Some x => x
                  | None => Undefined
                  end);
                 ("accessUrl",
                  match obj_get "url" ps with
                  | Some x => x
                  | None => Undefined
                  end)])).
Proof.
  intros Hlog Hfetch Hok Hv.
  set (c := RequestUpload bucketName bucketType fileInfo multipart).
  change (edgeStoreRawSdk.requestUpload P accessKey secretKey
            bucketName bucketType fileInfo multipart log)
    with (raw_call P accessKey secretKey c log) in *.
  destruct (body_of c) as [body|e] eqn:Hb; [|discriminate Hb].
  rewrite (raw_call_log _ _ _ _ _ _ Hb) in Hlog.
  apply log_extended_inj in Hlog. subst req.
  rewrite (raw_call_ok _ _ _ _ _ _ _ _ Hb Hfetch Hok Hv).
  split.
  - now intros s u ->.
  - now intros ps ->.
Qed.

Lemma requestUpload_result_witness :
  fst (run (edgeStoreRawSdk.requestUpload (host_answering upload_answer)
              "ak" "sk" "images" "IMAGE" sample_fileInfo Undefined))
  = Ok (Obj [("multipart", Undefined);
             ("signedUrl", Str "s");
             ("accessUrl", Str "u")]).
Proof.
  refine (proj1 (requestUpload_result (host_answering upload_answer)
                   "ak" "sk" "images" "IMAGE" sample_fileInfo Undefined []
                   (request_of (host_answering upload_answer)
                      (Obj [("multipart", Undefined);
                            ("bucketName", Str "images");
                            ("bucketType", Str "IMAGE");
                            ("isPublic", Bool true);
                            ("path", Arr [Obj [("key", Str "author");
                                               ("value", Str "u1")]]);
                            ("extension", Str "png");
                            ("size", Num 1024);
                            ("metadata", Undefined);
                            ("replaceTargetUrl", Undefined)])
                      "ak" "sk" "/request-upload")
                   {| res_status := 200; res_text := text_of upload_answer |}
                   upload_answer _ _ _ _) "s" "u" _); reflexivity.
Defined.

(** C7. [listFiles] posts to [/list-files] the text of
    [{ bucketName, filter, pagination }] with [filter] and [pagination] as
    they were passed: each appears in the body as the member
    [JSON.stringify] writes for it, and is left out when it is
    [undefined]. *)
Theorem listFiles_forwards (P : Platform) (accessKey secretKey : string)
  (bucketName : string) (filter pagination : value) (log : list Request) :
  snd (edgeStoreRawSdk.listFiles P accessKey secretKey
         bucketName filter pagination log)
  = (log ++
     [request_of P
        (Obj [("bucketName", Str bucketName);
              ("filter", filter);
              ("pagination", pagination)])
        accessKey secretKey "/list-files"])%list /\
  req_body
    (request_of P
       (Obj [("bucketName", Str bucketName);
             ("filter", filter);
             ("pagination", pagination)])
       accessKey secretKey "/list-files")
  = Some ("{" ++ json_quote "bucketName" ++ ":" ++ json_quote bucketName
          ++ json_next_member "filter" filter
          ++ json_next_member "pagination" pagination ++ "}").
Proof.
  split.
  - apply makeRequest_log.
  - apply listFiles_body_text.
Qed.

(** ** The operations on sample inputs *)

Example base64_sample : base64 "key:secret" = "a2V5OnNlY3JldA==".
Proof. reflexivity. Qed.

Example initEdgeStoreSdk_from_env :
  exists sdk, initEdgeStoreSdk (host sample_env [] no_answer) None = Ok sdk.
Proof. eexists. reflexivity. Qed.

Example reqBuckets_router_two :
  reqBuckets router_two
  = Ok (Obj [("images",
              Obj [("path",
                    Arr [Obj [("key", Str "author");
                              ("value", Str "ctx.userId")];
                         Obj [("key", Str "type");
                              ("value", Str "input.type")]]);
                   ("accessControl", Obj [("OR", Arr [])])]);
             ("files",
              Obj [("path", Arr []); ("accessControl", Undefined)])]).
Proof. reflexivity. Qed.

Example getFile_not_found :
  run (edgeStoreRawSdk.getFile
         (host sample_env [] {| res_status := 404; res_text := "no file" |})
         "ak" "sk" "u")
  = (Throw (Error "Failed to make request to /get-file: no file"),
     [request_of (host sample_env [] no_answer)
        (Obj [("url", Str "u")]) "ak" "sk" "/get-file"]).
Proof. reflexivity. Qed.

Example listFiles_absent_arguments :
  req_body (request_of (host sample_env [] no_answer)
              (Obj [("bucketName", Str "images");
                    ("filter", Undefined);
                    ("pagination", Undefined)])
              "ak" "sk" "/list-files")
  = Some ("{" ++ dquote ++ "bucketName" ++ dquote ++ ":"
          ++ dquote ++ "images" ++ dquote ++ "}").
Proof. reflexivity. Qed.

(** * Further properties of the module *)

(** ** When [initEdgeStoreSdk] succeeds *)

Lemma falsy_nonempty (x : string) : x <> "" -> falsy (Some x) = false.
Proof. intros Hx. cbn. now apply String.eqb_neq. Qed.

(** X1. [initEdgeStoreSdk] returns a handle exactly when each of the two
    keys, the explicit one or for want of it the one of the environment,
    is a non-empty string; the handle is the one holding those two keys. *)
Theorem initEdgeStoreSdk_succeeds_iff (P : Platform)
  (params : option InitParams.t) (sdk : EdgeStoreSdk.t) :
  initEdgeStoreSdk P params = Ok sdk <->
  exists accessKey secretKey,
    key_is (explicit_accessKey params)
      (env P !! "EDGE_STORE_ACCESS_KEY") accessKey /\
    key_is (explicit_secretKey params)
      (env P !! "EDGE_STORE_SECRET_KEY") secretKey /\
    accessKey <> "" /\ secretKey <> "" /\
    sdk = handle P accessKey secretKey.
Proof.
  split.
  - intros Hinit.
    destruct (initEdgeStoreSdk_Ok _ _ _ Hinit)
      as (a & s & Ha & Hs & Hane & Hsne & ->).
    exists a, s. split; [now apply resolved_accessKey_key_is|].
    split; [now apply resolved_secretKey_key_is|]. now repeat split.
  - intros (a & s & Ha & Hs & Hane & Hsne & ->).
    apply resolved_accessKey_key_is in Ha.
    apply resolved_secretKey_key_is in Hs.
    unfold initEdgeStoreSdk. rewrite Ha, Hs.
    now rewrite (falsy_nonempty _ Hane), (falsy_nonempty _ Hsne).
Qed.

(** X2. Keys passed explicitly win over the environment: with two
    non-empty explicit keys [initEdgeStoreSdk] returns a handle whatever
    [process.env] has, and every request the handle issues for a call with
    the arguments its parameter type declares is authorized with those two
    keys. *)
Theorem explicit_keys_override_env (P : Platform)
  (accessKey secretKey : string) :
  accessKey <> "" -> secretKey <> "" ->
  exists sdk : EdgeStoreSdk.t,
    initEdgeStoreSdk P
      (Some {| InitParams.accessKey := Some accessKey;
               InitParams.secretKey := Some secretKey |})
    = Ok sdk /\
    forall (c : call) (log : list Request),
      sends c ->
      exists body : option string,
        snd (sdk_call sdk c log)
        = List.app log
            [{| req_url :=
                  match env P !! "EDGE_STORE_API_ENDPOINT" with
                  | Some endpoint => endpoint
                  | None => "https://api.edgestore.dev"
                  end ++ route c;
                req_method := "POST";
                req_body := body;
                req_headers :=
                  [("Content-Type", "application/json");
                   ("Authorization",
                    "Basic " ++ base64 (accessKey ++ ":" ++ secretKey))] |}].
Proof.
  intros Hane Hsne. exists (handle P accessKey secretKey). split.
  - unfold initEdgeStoreSdk, resolved_accessKey, resolved_secretKey.
    cbn - [falsy].
    now rewrite (falsy_nonempty _ Hane), (falsy_nonempty _ Hsne).
  - intros c log Hs. destruct (sends_body _ Hs) as [body Hb].
    exists (JSON_stringify body).
    assert (Hraw : sdk_call (handle P accessKey secretKey) c log
                   = raw_call P accessKey secretKey c log)
      by (destruct c; reflexivity).
    now rewrite Hraw, (raw_call_log _ _ _ _ _ _ Hb).
Qed.

Lemma explicit_keys_override_env_witness :
  exists sdk : EdgeStoreSdk.t,
    initEdgeStoreSdk (host sample_env [] no_answer)
      (Some {| InitParams.accessKey := Some "ak";
               InitParams.secretKey := Some "sk" |})
    = Ok sdk /\
    forall (c : call) (log : list Request),
      sends c ->
      exists body : option string,
        snd (sdk_call sdk c log)
        = List.app log
            [{| req_url := "https://api.edgestore.dev" ++ route c;
                req_method := "POST";
                req_body := body;
                req_headers :=
                  [("Content-Type", "application/json");
                   ("Authorization", "Basic " ++ base64 "ak:sk")] |}].
Proof.
  apply (explicit_keys_override_env (host sample_env [] no_answer)
           "ak" "sk"); discriminate.
Defined.

(** X3. A key left out of the argument and set to the empty string in the
    environment is as good as missing: [EdgeStoreCredentialsError]. *)
Theorem empty_environment_key_rejected (P : Platform)
  (params : option InitParams.t) :
  (explicit_accessKey params = None /\
   env P !! "EDGE_STORE_ACCESS_KEY" = Some "") \/
  (explicit_secretKey params = None /\
   env P !! "EDGE_STORE_SECRET_KEY" = Some "") ->
  initEdgeStoreSdk P params = Throw EdgeStoreCredentialsError.
Proof.
  intros Hempty.
  unfold initEdgeStoreSdk, resolved_accessKey, resolved_secretKey.
  fold (explicit_accessKey params). fold (explicit_secretKey params).
  destruct Hempty as [[Hk He] | [Hk He]]; rewrite Hk, He; cbn.
  - reflexivity.
  - now rewrite orb_true_r.
Qed.

Lemma empty_environment_key_rejected_witness :
  initEdgeStoreSdk
    (host (<["EDGE_STORE_SECRET_KEY" := ""]> sample_env) [] no_answer)
    (Some {| InitParams.accessKey := Some "ak";
             InitParams.secretKey := None |})
  = Throw EdgeStoreCredentialsError.
Proof.
  apply (empty_environment_key_rejected
           (host (<["EDGE_STORE_SECRET_KEY" := ""]> sample_env) []
              no_answer)).
  right. split; reflexivity.
Defined.

(** ** When [getToken] reaches the network *)

Lemma path_params_nonempty_or_empty (l : list PathParam) :
  Forall (fun p : PathParam => p <> []) l \/ In [] l.
Proof.
  induction l as [|p l [IH | IH]].
  - left. constructor.
  - destruct p as [|entry rest].
    + right. now left.
    + left. constructor; [discriminate | exact IH].
  - right. now right.
Qed.

Lemma paths_nonempty_or_empty (router : AnyRouter) :
  paths_nonempty router \/ has_empty_path_param router.
Proof.
  unfold paths_nonempty, has_empty_path_param.
  induction (buckets router) as [|[bucketName bucket] bs [IH | IH]].
  - left. constructor.
  - destruct (path_params_nonempty_or_empty (BucketDef.path (_def bucket)))
      as [Hne | Hempty].
    + left. constructor; [exact Hne | exact IH].
    + right. exists bucketName, bucket. split; [now left | exact Hempty].
  - right. destruct IH as (n & b & Hin & Hempty).
    exists n, b. split; [now right | exact Hempty].
Qed.

(** X4. [getToken] leaves the network alone exactly when some path parameter
    of the router is an empty object; over any other router it issues its
    request. *)
Theorem getToken_silent_iff (P : Platform) (accessKey secretKey : string)
  (ctx : value) (router : AnyRouter) (log : list Request) :
  snd (edgeStoreRawSdk.getToken P accessKey secretKey ctx router log) = log
  <-> has_empty_path_param router.
Proof.
  split.
  - intros Hlog.
    destruct (paths_nonempty_or_empty router) as [Hne | Hempty];
      [|exact Hempty].
    destruct (sends_body (GetToken ctx router) Hne) as [body Hb].
    pose proof (raw_call_log P accessKey secretKey _ log _ Hb) as Hsent.
    cbn in Hsent. rewrite Hlog in Hsent.
    now apply log_not_extended in Hsent.
  - intros Hempty. unfold edgeStoreRawSdk.getToken, bind.
    now rewrite (reqBuckets_empty _ Hempty).
Qed.

(** ** Outcomes of an operation *)

Lemma makeRequest_cases (P : Platform) (body : value)
  (accessKey secretKey path : string) (log : list Request) :
  let req := request_of P body accessKey secretKey path in
  (fetch P req = None /\
   makeRequest P body accessKey secretKey path log
   = (Throw FetchFailed, (log ++ [req])%list)) \/
  (exists res,
      fetch P req = Some res /\ res_ok res = false /\
      makeRequest P body accessKey secretKey path log
      = (Throw (Error ("Failed to make request to " ++ path ++ ": "
                       ++ res_text res)),
         (log ++ [req])%list)) \/
  (exists res,
      fetch P req = Some res /\ res_ok res = true /\
      JSON_parse P (res_text res) = None /\
      makeRequest P body accessKey secretKey path log
      = (Throw SyntaxError, (log ++ [req])%list)) \/
  (exists res v,
      fetch P req = Some res /\ res_ok res = true /\
      JSON_parse P (res_text res) = Some v /\
      makeRequest P body accessKey secretKey path log
      = (Ok v, (log ++ [req])%list)).
Proof.
  intros req.
  destruct (fetch P req) as [res|] eqn:Hf.
  - destruct (res_ok res) eqn:Hok.
    + destruct (JSON_parse P (res_text res)) as [v|] eqn:Hv.
      * right. right. right. exists res, v. repeat split; try assumption.
        now apply makeRequest_ok with (res := res).
      * right. right. left. exists res. repeat split; try assumption.
        now apply makeRequest_not_json with (res := res).
    + right. left. exists res. repeat split; try assumption.
      now apply makeRequest_not_ok.
  - left. split; [reflexivity|]. now apply makeRequest_rejected.
Qed.

Lemma answer_of_throws (c : call) (v : value) (e : error) :
  answer_of c v = Throw e ->
  e = TypeError /\ (v = Null \/ v = Undefined) /\ reads_answer c.
Proof.
  destruct c; cbn; try discriminate; destruct v; cbn; try discriminate;
    intros [= <-]; repeat split; auto.
Qed.

(** X5. When the network rejects the request of an operation, the operation
    is rejected with that failure; the request has been issued. *)
Theorem operation_rejected_by_network (P : Platform)
  (accessKey secretKey : string) (c : call) (log : list Request)
  (req : Request) :
  snd (raw_call P accessKey secretKey c log) = (log ++ [req])%list ->
  fetch P req = None ->
  fst (raw_call P accessKey secretKey c log) = Throw FetchFailed.
Proof.
  intros Hlog Hfetch.
  destruct (body_of c) as [body|e] eqn:Hb.
  - rewrite (raw_call_log _ _ _ _ _ _ Hb) in Hlog.
    apply log_extended_inj in Hlog. subst req.
    rewrite raw_call_factored, Hb.
    now rewrite (makeRequest_rejected _ _ _ _ _ _ Hfetch).
  - rewrite raw_call_factored, Hb in Hlog. cbn in Hlog.
    now apply log_not_extended in Hlog.
Qed.

Lemma operation_rejected_by_network_witness :
  fst (run (raw_call host_offline "ak" "sk" (DeleteFile "u")))
  = Throw FetchFailed.
Proof.
  apply (operation_rejected_by_network host_offline "ak" "sk"
           (DeleteFile "u") []
           (request_of host_offline (Obj [("url", Str "u")])
              "ak" "sk" "/delete-file"));
    reflexivity.
Defined.

(** X6. An operation returns a value only out of an answer: it has then
    issued one request, to the route of the operation, the network has
    answered it with a 2xx status and a JSON text, and the value is what
    the operation reads from the parsed text. *)
Theorem operation_success_sound (P : Platform)
  (accessKey secretKey : string) (c : call) (log : list Request)
  (r : value) :
  fst (raw_call P accessKey secretKey c log) = Ok r ->
  exists (req : Request) (res : Response) (v : value),
    snd (raw_call P accessKey secretKey c log) = (log ++ [req])%list /\
    req_url req = API_ENDPOINT P ++ route c /\
    fetch P req = Some res /\
    res_ok res = true /\
    JSON_parse P (res_text res) = Some v /\
    answer_of c v = Ok r.
Proof.
  rewrite raw_call_factored.
  destruct (body_of c) as [body|e]; [|discriminate].
  destruct (makeRequest_cases P body accessKey secretKey (route c) log)
    as [[_ ->] | [(res & _ & _ & ->) | [(res & _ & _ & _ & ->)
       | (res & v & Hf & Hok & Hv & ->)]]]; try discriminate.
  cbn. intros Hr.
  exists (request_of P body accessKey secretKey (route c)), res, v.
  repeat split; assumption.
Qed.

Lemma operation_success_sound_witness :
  exists (req : Request) (res : Response) (v : value),
    snd (run (raw_call (host_answering token_answer) "ak" "sk"
                (GetToken Null router_two)))
    = [req] /\
    req_url req = "https://api.edgestore.dev/get-token" /\
    fetch (host_answering token_answer) req = Some res /\
    res_ok res = true /\
    JSON_parse (host_answering token_answer) (res_text res) = Some v /\
    answer_of (GetToken Null router_two) v = Ok (Str "t").
Proof.
  apply (operation_success_sound (host_answering token_answer) "ak" "sk"
           (GetToken Null router_two) [] (Str "t")).
  reflexivity.
Defined.

Lemma operation_failure_cases (P : Platform) (accessKey secretKey : string)
  (c : call) (log : list Request) (e : error) :
  fst (raw_call P accessKey secretKey c log) = Throw e ->
  (snd (raw_call P accessKey secretKey c log) = log /\
   e = Error "Missing path param" /\
   exists ctx router, c = GetToken ctx router /\ has_empty_path_param router)
  \/
  (exists req : Request,
      snd (raw_call P accessKey secretKey c log) = (log ++ [req])%list /\
      ((fetch P req = None /\ e = FetchFailed) \/
       (exists res,
           fetch P req = Some res /\ res_ok res = false /\
           e = Error ("Failed to make request to " ++ route c ++ ": "
                      ++ res_text res)) \/
       (exists res,
           fetch P req = Some res /\ res_ok res = true /\
           JSON_parse P (res_text res) = None /\ e = SyntaxError) \/
       (exists res v,
           fetch P req = Some res /\ res_ok res = true /\
           JSON_parse P (res_text res) = Some v /\
           (v = Null \/ v = Undefined) /\ reads_answer c /\
           e = TypeError))).
Proof.
  rewrite raw_call_factored.
  destruct (body_of c) as [body|e0] eqn:Hb.
  - intros Hthrow. right.
    exists (request_of P body accessKey secretKey (route c)).
    destruct (makeRequest_cases P body accessKey secretKey (route c) log)
      as [[Hf Hm] | [(res & Hf & Hok & Hm) | [(res & Hf & Hok & Hv & Hm)
         | (res & v & Hf & Hok & Hv & Hm)]]];
      rewrite Hm in Hthrow |- *; cbn in Hthrow |- *;
      (split; [reflexivity|]).
    + left. split; [exact Hf | congruence].
    + right. left. exists res. repeat split; congruence.
    + right. right. left. exists res. repeat split; congruence.
    + right. right. right. exists res, v.
      destruct (answer_of_throws _ _ _ Hthrow) as (-> & Hnull & Hreads).
      repeat split; assumption.
  - cbn. intros [= ->]. left. split; [reflexivity|].
    destruct c; cbn in Hb; try discriminate.
    destruct (paths_nonempty_or_empty router) as [Hne | Hempty].
    + destruct (reqBuckets_total _ Hne) as [b Hok].
      rewrite Hok in Hb. discriminate.
    + rewrite (reqBuckets_empty _ Hempty) in Hb. injection Hb as <-.
      split; [reflexivity|]. now exists ctx, router.
Qed.

(** X7. What a failure tells the caller.  An operation never throws
    [EdgeStoreCredentialsError].  An [Error] it throws is either
    [Missing path param], from [getToken] over a router with an empty path
    parameter and before any request, or [Failed to make request to] the
    route followed by the text of an answer whose status is outside
    200-299.  A [SyntaxError] means that the one request was answered with
    a 2xx status and a text that is not JSON. *)
Theorem operation_failures (P : Platform) (accessKey secretKey : string)
  (c : call) (log : list Request) (e : error) :
  fst (raw_call P accessKey secretKey c log) = Throw e ->
  e <> EdgeStoreCredentialsError /\
  (forall m : string,
      e = Error m ->
      (m = "Missing path param" /\
       snd (raw_call P accessKey secretKey c log) = log /\
       exists ctx router,
         c = GetToken ctx router /\ has_empty_path_param router) \/
      (exists (req : Request) (res : Response),
          snd (raw_call P accessKey secretKey c log) = (log ++ [req])%list /\
          fetch P req = Some res /\ res_ok res = false /\
          m = "Failed to make request to " ++ route c ++ ": "
              ++ res_text res)) /\
  (e = SyntaxError ->
   exists (req : Request) (res : Response),
     snd (raw_call P accessKey secretKey c log) = (log ++ [req])%list /\
     fetch P req = Some res /\ res_ok res = true /\
     JSON_parse P (res_text res) = None).
Proof.
  intros Hthrow.
  destruct (operation_failure_cases _ _ _ _ _ _ Hthrow)
    as [(Hlog & -> & Hc)
       | (req & Hlog & [[Hf ->] | [(res & Hf & Hok & ->)
                       | [(res & Hf & Hok & Hv & ->)
                         | (res & v & Hf & Hok & Hv & _ & _ & ->)]]])].
  - split; [discriminate|]. split; [|discriminate].
    intros m [= <-]. left. now repeat split.
  - split; [discriminate|]. split; discriminate.
  - split; [discriminate|]. split; [|discriminate].
    intros m [= <-]. right. exists req, res. now repeat split.
  - split; [discriminate|]. split; [discriminate|].
    intros _. exists req, res. now repeat split.
  - split; [discriminate|]. split; discriminate.
Qed.

Lemma operation_failures_witness :
  exists (req : Request) (res : Response),
    snd (run (raw_call host_not_json "ak" "sk" (GetFile "u"))) = [req] /\
    fetch host_not_json req = Some res /\ res_ok res = true /\
    JSON_parse host_not_json (res_text res) = None.
Proof.
  apply (proj2 (proj2 (operation_failures host_not_json "ak" "sk"
                         (GetFile "u") [] SyntaxError eq_refl))).
  reflexivity.
Defined.

(** ** Answers of an unexpected shape *)

(** X9. A 2xx answer whose text is the JSON [null] is returned as [null] by
    [getFile], [deleteFile] and [listFiles], and makes [getToken],
    [requestUpload] and [requestUploadParts] throw a [TypeError]. *)
Theorem null_answer (P : Platform) (accessKey secretKey : string)
  (c : call) (log : list Request) (req : Request) (res : Response) :
  snd (raw_call P accessKey secretKey c log) = (log ++ [req])%list ->
  fetch P req = Some res ->
  res_ok res = true ->
  JSON_parse P (res_text res) = Some Null ->
  (reads_answer c ->
   fst (raw_call P accessKey secretKey c log) = Throw TypeError) /\
  (~ reads_answer c ->
   fst (raw_call P accessKey secretKey c log) = Ok Null).
Proof.
  intros Hlog Hfetch Hok Hv.
  destruct (body_of c) as [body|e] eqn:Hb.
  - rewrite (raw_call_log _ _ _ _ _ _ Hb) in Hlog.
    apply log_extended_inj in Hlog. subst req.
    rewrite (raw_call_ok _ _ _ _ _ _ _ _ Hb Hfetch Hok Hv).
    destruct c; cbn; split; intros Hr; try reflexivity; tauto.
  - rewrite raw_call_factored, Hb in Hlog. cbn in Hlog.
    now apply log_not_extended in Hlog.
Qed.

Lemma null_answer_witness :
  fst (run (raw_call (host_answering Null) "ak" "sk"
              (RequestUploadParts "k" (Obj [("parts", Arr [Num 2])]))))
  = Throw TypeError.
Proof.
  refine (proj1 (null_answer (host_answering Null) "ak" "sk"
                   (RequestUploadParts "k" (Obj [("parts", Arr [Num 2])]))
                   []
                   (request_of (host_answering Null)
                      (Obj [("multipart", Obj [("parts", Arr [Num 2])]);
                            ("key", Str "k")])
                      "ak" "sk" "/request-upload-parts")
                   {| res_status := 200; res_text := text_of Null |}
                   _ _ _ _) _); first [reflexivity | exact I].
Defined.

(** X10. A 2xx answer that is a JSON object with no [token] makes [getToken]
    return [undefined]: the shape of the answer is not checked. *)
Theorem getToken_without_token (P : Platform)
  (accessKey secretKey : string) (ctx : value) (router : AnyRouter)
  (log : list Request) (req : Request) (res : Response)
  (ps : list (string * value)) :
  snd (edgeStoreRawSdk.getToken P accessKey secretKey ctx router log)
  = (log ++ [req])%list ->
  fetch P req = Some res ->
  res_ok res = true ->
  JSON_parse P (res_text res) = Some (Obj ps) ->
  obj_get "token" ps = None ->
  fst (edgeStoreRawSdk.getToken P accessKey secretKey ctx router log)
  = Ok Undefined.
Proof.
  intros Hlog Hfetch Hok Hv Htoken.
  change (edgeStoreRawSdk.getToken P accessKey secretKey ctx router log)
    with (raw_call P accessKey secretKey (GetToken ctx router) log) in *.
  destruct (body_of (GetToken ctx router)) as [body|e] eqn:Hb.
  - rewrite (raw_call_log _ _ _ _ _ _ Hb) in Hlog.
    apply log_extended_inj in Hlog. subst req.
    rewrite (raw_call_ok _ _ _ _ _ _ _ _ Hb Hfetch Hok Hv).
    cbn. now rewrite Htoken.
  - rewrite raw_call_factored, Hb in Hlog. cbn in Hlog.
    now apply log_not_extended in Hlog.
Qed.

Lemma getToken_without_token_witness :
  fst (run (edgeStoreRawSdk.getToken (host_answering upload_answer)
              "ak" "sk" Null router_two))
  = Ok Undefined.
Proof.
  apply (getToken_without_token (host_answering upload_answer) "ak" "sk"
           Null router_two []
           (request_of (host_answering upload_answer)
              (Obj [("ctx", Null); ("buckets", buckets_map router_two)])
              "ak" "sk" "/get-token")
           {| res_status := 200; res_text := text_of upload_answer |}
           [("signedUrl", Str "s"); ("url", Str "u")]);
    reflexivity.
Defined.

(** ** Requests *)

Lemma body_of_Obj (c : call) (body : value) :
  body_of c = Ok body -> exists ps, body = Obj ps.
Proof.
  destruct c; cbn; try (intros [= <-]; eexists; reflexivity).
  destruct (reqBuckets router); intros [= <-]. eexists; reflexivity.
Qed.

(** X11. Every request an operation issues is a POST, declared as
    [application/json], whose body is the text [JSON.stringify] gives of
    an object: never an absent body, nor the text of an array or of a
    primitive. *)
Theorem request_body_is_object (P : Platform)
  (accessKey secretKey : string) (c : call) (log : list Request)
  (req : Request) :
  snd (raw_call P accessKey secretKey c log) = (log ++ [req])%list ->
  req_method req = "POST" /\
  In ("Content-Type", "application/json") (req_headers req) /\
  exists ps : list (string * value),
    req_body req = JSON_stringify (Obj ps).
Proof.
  intros Hlog.
  destruct (body_of c) as [body|e] eqn:Hb.
  - rewrite (raw_call_log _ _ _ _ _ _ Hb) in Hlog.
    apply log_extended_inj in Hlog. subst req.
    destruct (body_of_Obj _ _ Hb) as [ps ->].
    split; [reflexivity|]. split; [now left|].
    now exists ps.
  - rewrite raw_call_factored, Hb in Hlog. cbn in Hlog.
    now apply log_not_extended in Hlog.
Qed.

Lemma request_body_is_object_witness :
  req_method (request_of host_offline (Obj [("url", Str "u")])
                "ak" "sk" "/get-file") = "POST" /\
  In ("Content-Type", "application/json")
    (req_headers (request_of host_offline (Obj [("url", Str "u")])
                    "ak" "sk" "/get-file")) /\
  exists ps : list (string * value),
    req_body (request_of host_offline (Obj [("url", Str "u")])
                "ak" "sk" "/get-file")
    = JSON_stringify (Obj ps).
Proof.
  apply (request_body_is_object host_offline "ak" "sk" (GetFile "u") []).
  reflexivity.
Defined.

Lemma request_of_colon (P : Platform) (body : value)
  (a b s path : string) :
  request_of P body (a ++ ":" ++ b) s path
  = request_of P body a (b ++ ":" ++ s) path.
Proof.
  unfold request_of. now rewrite (string_app_assoc a (":" ++ b) (":" ++ s)).
Qed.

(** X12. The two keys are joined by a colon and nothing marks where the access
    key ends: the pairs [(a:b, s)] and [(a, b:s)] run every operation the
    same way, with the same request and the same outcome. *)
Theorem credentials_joined_by_colon (P : Platform) (a b s : string)
  (c : call) (log : list Request) :
  raw_call P (a ++ ":" ++ b) s c log = raw_call P a (b ++ ":" ++ s) c log.
Proof.
  rewrite !raw_call_factored.
  destruct (body_of c) as [body|e]; [|reflexivity].
  unfold makeRequest. now rewrite request_of_colon.
Qed.

(** X13. [requestUpload] with no [multipart] argument, for a file with
    neither [metadata] nor [replaceTargetUrl]: the body posted to
    [/request-upload] has the six members [bucketName], [bucketType],
    [isPublic], [path], [extension] and [size], in that order, [path] and
    [size] as [JSON.stringify] writes the values passed; the three absent
    ones are left out of the text, not written as [null]. *)
Theorem requestUpload_body_without_optionals (P : Platform)
  (accessKey secretKey bucketName bucketType : string)
  (fileInfo : FileInfoForUpload.t) (log : list Request)
  (path_text size_text : string) :
  FileInfoForUpload.metadata fileInfo = None ->
  FileInfoForUpload.replaceTargetUrl fileInfo = None ->
  JSON_stringify (FileInfoForUpload.path fileInfo) = Some path_text ->
  JSON_stringify (Num (FileInfoForUpload.size fileInfo)) = Some size_text ->
  exists req : Request,
    snd (edgeStoreRawSdk.requestUpload P accessKey secretKey
           bucketName bucketType fileInfo Undefined log)
    = List.app log [req] /\
    req_url req = API_ENDPOINT P ++ "/request-upload" /\
    req_body req
    = Some ("{" ++ json_quote "bucketName" ++ ":" ++ json_quote bucketName
            ++ "," ++ json_quote "bucketType" ++ ":" ++ json_quote bucketType
            ++ "," ++ json_quote "isPublic" ++ ":"
            ++ (if FileInfoForUpload.isPublic fileInfo
                then "true" else "false")
            ++ "," ++ json_quote "path" ++ ":" ++ path_text
            ++ "," ++ json_quote "extension" ++ ":"
            ++ json_quote (FileInfoForUpload.extension fileInfo)
            ++ "," ++ json_quote "size" ++ ":" ++ size_text ++ "}").
Proof.
  intros Hmeta Hreplace Hpath Hsize.
  set (c := RequestUpload bucketName bucketType fileInfo Undefined).
  change (edgeStoreRawSdk.requestUpload P accessKey secretKey
            bucketName bucketType fileInfo Undefined log)
    with (raw_call P accessKey secretKey c log).
  destruct (body_of c) as [body|e] eqn:Hb; [|discriminate Hb].
  exists (request_of P body accessKey secretKey (route c)).
  split; [now apply raw_call_log|]. split; [reflexivity|].
  injection Hb as <-. rewrite Hmeta, Hreplace.
  unfold request_of, req_body. rewrite JSON_stringify_Obj.
  cbn - [JSON_stringify]. rewrite Hpath, Hsize.
  change (JSON_stringify Undefined) with (@None string).
  change (JSON_stringify (Str bucketName)) with (Some (json_quote bucketName)).
  change (JSON_stringify (Str bucketType)) with (Some (json_quote bucketType)).
  change (JSON_stringify (Str (FileInfoForUpload.extension fileInfo)))
    with (Some (json_quote (FileInfoForUpload.extension fileInfo))).
  destruct (FileInfoForUpload.isPublic fileInfo); cbn;
    now rewrite !string_app_assoc.
Qed.

Lemma requestUpload_body_without_optionals_witness :
  exists req : Request,
    snd (run (edgeStoreRawSdk.requestUpload host_offline "ak" "sk"
                "images" "IMAGE" sample_fileInfo Undefined))
    = [req] /\
    req_url req = "https://api.edgestore.dev/request-upload" /\
    req_body req
    = Some ("{" ++ json_quote "bucketName" ++ ":" ++ json_quote "images"
            ++ "," ++ json_quote "bucketType" ++ ":" ++ json_quote "IMAGE"
            ++ "," ++ json_quote "isPublic" ++ ":" ++ "true"
            ++ "," ++ json_quote "path" ++ ":"
            ++ ("[{" ++ json_quote "key" ++ ":" ++ json_quote "author"
                ++ "," ++ json_quote "value" ++ ":" ++ json_quote "u1"
                ++ "}]")
            ++ "," ++ json_quote "extension" ++ ":" ++ json_quote "png"
            ++ "," ++ json_quote "size" ++ ":" ++ "1024" ++ "}").
Proof.
  apply (requestUpload_body_without_optionals host_offline "ak" "sk"
           "images" "IMAGE" sample_fileInfo []
           ("[{" ++ json_quote "key" ++ ":" ++ json_quote "author"
            ++ "," ++ json_quote "value" ++ ":" ++ json_quote "u1" ++ "}]")
           "1024");
    vm_compute; reflexivity.
Defined.

(** X14. When the backend answers [requestUploadParts] with a 2xx status and a
    JSON object, the wrapper returns an object with the one property
    [multipart], the [multipart] of the answer ([undefined] when the answer
    has none); whatever else the answer holds is dropped. *)
Theorem requestUploadParts_result (P : Platform)
  (accessKey secretKey key : string) (multipart : value)
  (log : list Request) (req : Request) (res : Response)
  (ps : list (string * value)) :
  snd (edgeStoreRawSdk.requestUploadParts P accessKey secretKey
         key multipart log)
  = (log ++ [req])%list ->
  fetch P req = Some res ->
  res_ok res = true ->
  JSON_parse P (res_text res) = Some (Obj ps) ->
  fst (edgeStoreRawSdk.requestUploadParts P accessKey secretKey
         key multipart log)
  = Ok (Obj [("multipart",
              match obj_get "multipart" ps with
              | Some x => x
              | None => Undefined
              end)]).
Proof.
  intros Hlog Hfetch Hok Hv.
  set (c := RequestUploadParts key multipart).
  change (edgeStoreRawSdk.requestUploadParts P accessKey secretKey
            key multipart log)
    with (raw_call P accessKey secretKey c log) in *.
  destruct (body_of c) as [body|e] eqn:Hb; [|discriminate Hb].
  rewrite (raw_call_log _ _ _ _ _ _ Hb) in Hlog.
  apply log_extended_inj in Hlog. subst req.
  now rewrite (raw_call_ok _ _ _ _ _ _ _ _ Hb Hfetch Hok Hv).
Qed.

Lemma requestUploadParts_result_witness :
  fst (run (edgeStoreRawSdk.requestUploadParts
              (host_answering upload_answer) "ak" "sk" "k"
              (Obj [("parts", Arr [Num 2])])))
  = Ok (Obj [("multipart", Undefined)]).
Proof.
  apply (requestUploadParts_result (host_answering upload_answer)
           "ak" "sk" "k" (Obj [("parts", Arr [Num 2])]) []
           (request_of (host_answering upload_answer)
              (Obj [("multipart", Obj [("parts", Arr [Num 2])]);
                    ("key", Str "k")])
              "ak" "sk" "/request-upload-parts")
           {| res_status := 200; res_text := text_of upload_answer |}
           [("signedUrl", Str "s"); ("url", Str "u")]);
    reflexivity.
Defined.

(** X15. [requestUploadParts] posts to [/request-upload-parts] the text of
    [{ multipart, key }] with [multipart] as it was passed: its text comes
    first, followed by the key. *)
Theorem requestUploadParts_forwards (P : Platform)
  (accessKey secretKey key : string) (multipart : value)
  (log : list Request) (t : string) :
  JSON_stringify multipart = Some t ->
  exists req : Request,
    snd (edgeStoreRawSdk.requestUploadParts P accessKey secretKey
           key multipart log)
    = List.app log [req] /\
    req_url req = API_ENDPOINT P ++ "/request-upload-parts" /\
    req_body req
    = Some ("{" ++ json_quote "multipart" ++ ":" ++ t
            ++ "," ++ json_quote "key" ++ ":" ++ json_quote key ++ "}").
Proof.
  intros Ht.
  set (c := RequestUploadParts key multipart).
  change (edgeStoreRawSdk.requestUploadParts P accessKey secretKey
            key multipart log)
    with (raw_call P accessKey secretKey c log).
  destruct (body_of c) as [body|e] eqn:Hb; [|discriminate Hb].
  exists (request_of P body accessKey secretKey (route c)).
  split; [now apply raw_call_log|]. split; [reflexivity|].
  injection Hb as <-.
  unfold request_of, req_body. rewrite JSON_stringify_Obj.
  cbn - [JSON_stringify]. rewrite Ht. cbn.
  now rewrite !string_app_assoc.
Qed.

Lemma requestUploadParts_forwards_witness :
  exists req : Request,
    snd (run (edgeStoreRawSdk.requestUploadParts host_offline "ak" "sk" "k"
                (Obj [("parts", Arr [Num 2; Num 3])])))
    = [req] /\
    req_url req = "https://api.edgestore.dev/request-upload-parts" /\
    req_body req
    = Some ("{" ++ json_quote "multipart" ++ ":"
            ++ ("{" ++ json_quote "parts" ++ ":[2,3]}")
            ++ "," ++ json_quote "key" ++ ":" ++ json_quote "k" ++ "}").
Proof.
  apply (requestUploadParts_forwards host_offline "ak" "sk" "k"
           (Obj [("parts", Arr [Num 2; Num 3])]) []).
  reflexivity.
Defined.

(** X16. [getFile] and [deleteFile] post the same body, the object whose one
    member is the url as a JSON string, with the same headers; the two
    requests differ by the route only. *)
Theorem getFile_deleteFile_requests (P : Platform)
  (accessKey secretKey url : string) (log : list Request) :
  exists (headers : list (string * string)),
    snd (edgeStoreRawSdk.getFile P accessKey secretKey url log)
    = List.app log
        [{| req_url := API_ENDPOINT P ++ "/get-file";
            req_method := "POST";
            req_body := Some ("{" ++ json_quote "url" ++ ":"
                              ++ json_quote url ++ "}");
            req_headers := headers |}] /\
    snd (edgeStoreRawSdk.deleteFile P accessKey secretKey url log)
    = List.app log
        [{| req_url := API_ENDPOINT P ++ "/delete-file";
            req_method := "POST";
            req_body := Some ("{" ++ json_quote "url" ++ ":"
                              ++ json_quote url ++ "}");
            req_headers := headers |}].
Proof.
  eexists. split.
  - unfold edgeStoreRawSdk.getFile. rewrite makeRequest_log.
    unfold request_of. do 3 f_equal. cbn.
    now rewrite !string_app_assoc.
  - unfold edgeStoreRawSdk.deleteFile. rewrite makeRequest_log.
    unfold request_of. do 3 f_equal. cbn.
    now rewrite !string_app_assoc.
Qed.

(** ** The buckets of [getToken] over plain names *)

(** X17. Over a router whose bucket names are distinct and none of them
    [__proto__], with no empty path parameter, [getToken] posts to
    [/get-token] one request whose body is the text of [{ ctx, buckets }],
    [buckets] being the map from each bucket name, in the order of the
    router, to [{ path, accessControl }]: [path] lists in order the
    [{ key, value }] pairs of the evaluated path parameters,
    [accessControl] is the bucket's own. *)
Theorem getToken_request (P : Platform) (accessKey secretKey : string)
  (ctx : value) (router : AnyRouter) (log : list Request) :
  distinct_names router -> plain_names router -> paths_nonempty router ->
  snd (edgeStoreRawSdk.getToken P accessKey secretKey ctx router log)
  = List.app log
      [{| req_url :=
            match env P !! "EDGE_STORE_API_ENDPOINT" with
            | Some endpoint => endpoint
            | None => "https://api.edgestore.dev"
            end ++ "/get-token";
          req_method := "POST";
          req_body :=
            JSON_stringify
              (Obj [("ctx", ctx);
                    ("buckets",
                     Obj (List.map
                            (fun entry : string * Bucket =>
                               (fst entry,
                                Obj [("path",
                                      Arr (List.map evaluated_segment
                                             (BucketDef.path
                                                (_def (snd entry)))));
                                     ("accessControl",
                                      BucketDef.accessControl
                                        (_def (snd entry)))]))
                            (buckets router)))]);
          req_headers :=
            [("Content-Type", "application/json");
             ("Authorization",
              "Basic " ++ base64 (accessKey ++ ":" ++ secretKey))] |}].
Proof.
  intros Hnd Hplain Hne.
  now rewrite (getToken_log _ _ _ _ _ _ _
                 (reqBuckets_nonempty _ Hnd Hplain Hne)).
Qed.

Lemma getToken_request_witness :
  snd (run (edgeStoreRawSdk.getToken (host_answering token_answer)
              "ak" "sk" (Obj [("userId", Str "u1")]) router_two))
  = [{| req_url := "https://api.edgestore.dev/get-token";
        req_method := "POST";
        req_body :=
          JSON_stringify
            (Obj [("ctx", Obj [("userId", Str "u1")]);
                  ("buckets",
                   Obj [("images",
                         Obj [("path",
                               Arr [Obj [("key", Str "author");
                                         ("value", Str "ctx.userId")];
                                    Obj [("key", Str "type");
                                         ("value", Str "input.type")]]);
                              ("accessControl", Obj [("OR", Arr [])])]);
                        ("files",
                         Obj [("path", Arr []);
                              ("accessControl", Undefined)])])]);
        req_headers :=
          [("Content-Type", "application/json");
           ("Authorization", "Basic " ++ base64 "ak:sk")] |}].
Proof.
  apply (getToken_request (host_answering token_answer) "ak" "sk"
           (Obj [("userId", Str "u1")]) router_two []).
  - exact router_two_distinct.
  - exact router_two_plain.
  - exact router_two_nonempty.
Defined.

(** ** The handle against the raw SDK *)

(** X18. On a handle returned by [initEdgeStoreSdk], with [accessKey] and
    [secretKey] the keys it was made with (the explicit one, or for want
    of it the one of the environment), each operation called with the
    arguments its parameter type declares is the raw operation applied to
    those keys and the same arguments: same request, same result, same
    error.  So is [listFiles] over any argument object that has a
    [bucketName] and carries neither an [accessKey] nor a [secretKey]. *)
Theorem handle_is_raw_sdk (P : Platform) (params : option InitParams.t)
  (sdk : EdgeStoreSdk.t) :
  initEdgeStoreSdk P params = Ok sdk ->
  exists accessKey secretKey,
    key_is (explicit_accessKey params)
      (env P !! "EDGE_STORE_ACCESS_KEY") accessKey /\
    key_is (explicit_secretKey params)
      (env P !! "EDGE_STORE_SECRET_KEY") secretKey /\
    (forall (c : call) (log : list Request),
        sdk_call sdk c log = raw_call P accessKey secretKey c log) /\
    (forall (arg : list (string * value)) (bucketName : string)
            (log : list Request),
        List.NoDup (List.map fst arg) ->
        obj_get "accessKey" arg = None ->
        obj_get "secretKey" arg = None ->
        obj_get "bucketName" arg = Some (Str bucketName) ->
        EdgeStoreSdk.listFiles sdk arg log
        = edgeStoreRawSdk.listFiles P accessKey secretKey bucketName
            (prop "filter" arg) (prop "pagination" arg) log).
Proof.
  intros Hinit.
  destruct (initEdgeStoreSdk_Ok _ _ _ Hinit) as (a & s & Ha & Hs & _ & _ & ->).
  exists a, s.
  split; [now apply resolved_accessKey_key_is|].
  split; [now apply resolved_secretKey_key_is|].
  split.
  - intros c log. destruct c; reflexivity.
  - intros arg bucketName log. apply handle_listFiles_declared.
Qed.

Lemma handle_is_raw_sdk_witness :
  exists accessKey secretKey,
    key_is (Some "ak") (Some "env-access") accessKey /\
    key_is None (Some "env-secret") secretKey /\
    (forall (c : call) (log : list Request),
        sdk_call (handle (host sample_env [] no_answer) "ak" "env-secret")
          c log
        = raw_call (host sample_env [] no_answer) accessKey secretKey c log)
    /\
    (forall (arg : list (string * value)) (bucketName : string)
            (log : list Request),
        List.NoDup (List.map fst arg) ->
        obj_get "accessKey" arg = None ->
        obj_get "secretKey" arg = None ->
        obj_get "bucketName" arg = Some (Str bucketName) ->
        EdgeStoreSdk.listFiles
          (handle (host sample_env [] no_answer) "ak" "env-secret") arg log
        = edgeStoreRawSdk.listFiles (host sample_env [] no_answer)
            accessKey secretKey bucketName
            (prop "filter" arg) (prop "pagination" arg) log).
Proof.
  apply (handle_is_raw_sdk (host sample_env [] no_answer)
           (Some {| InitParams.accessKey := Some "ak";
                    InitParams.secretKey := None |})).
  reflexivity.
Defined.
